(** * Genomic window density: the window counter of [window-counter.py]

    A shallow embedding of [count_features_in_windows] and the properties
    of its output: window tiling, per-window counts, ordering, and the
    behaviour on inputs outside the documented preconditions.

    Conventions of the embedding.
    - Python integers are unbounded, so lengths, coordinates and the
      window size are [Z]; Python's [//] and [%] round towards minus
      infinity with the remainder taking the sign of the divisor, which
      is exactly [Z.div] and [Z.modulo], except that a zero divisor
      raises [ZeroDivisionError].
    - A [dict] is the list of its items in insertion order; its keys
      are pairwise distinct ([dict_wf]).
    - The coordinate table (a pandas DataFrame) is the list of its rows
      in row order, names being strings and coordinates integers; a
      boolean mask is a [bool]-valued function on rows.
    - Exceptions are values of [exn] carried by the [result] monad. *)

From Stdlib Require Import ZArith String List Lia DecimalString.
From stdpp Require Import base list strings sorting.

Local Open Scope Z_scope.

(** ** Exceptions *)

Inductive exn : Type :=
  | ZeroDivisionError
  | KeyError (key : string).

Inductive result (A : Type) : Type :=
  | Ok (a : A)
  | Raise (e : exn).

Arguments Ok {A} a.
Arguments Raise {A} e.

(** Sequencing: an exception skips the rest of the block. *)
Global Instance result_bind : MBind result := fun A B k m =>
  match m with
  | Ok a => k a
  | Raise e => Raise e
  end.

(** A [for] loop whose body may raise: the exception leaves the loop. *)
Fixpoint for_in {A S : Type} (xs : list A) (body : S -> A -> result S) (s : S)
  : result S :=
  match xs with
  | [] => Ok s
  | x :: xs' => s' ← body s x; for_in xs' body s'
  end.

(** ** Python primitives *)

(** [a // b] *)
Definition floordiv (a b : Z) : result Z :=
  if b =? 0 then Raise ZeroDivisionError else Ok (a / b).

(** [a % b] *)
Definition pymod (a b : Z) : result Z :=
  if b =? 0 then Raise ZeroDivisionError else Ok (a mod b).

(** [range(n)]: empty when [n <= 0]. *)
Definition range (n : Z) : list Z :=
  map Z.of_nat (seq 0 (Z.to_nat n)).

(** [sorted(l)] on strings. Python compares strings by code point, which
    on the byte strings used here is [String.le]; Python's sort is a
    stable merge sort. *)
Definition sorted (l : list string) : list string :=
  merge_sort String.le l.

(** ** Dictionaries *)

Definition dict : Type := list (string * Z).

(** [d.keys()], in insertion order. *)
Definition keys (d : dict) : list string := map fst d.

(** [d[k]] *)
Fixpoint getitem (d : dict) (k : string) : result Z :=
  match d with
  | [] => Raise (KeyError k)
  | (k', v) :: d' => if String.eqb k' k then Ok v else getitem d' k
  end.

(** The keys of a dictionary are pairwise distinct. *)
Definition dict_wf (d : dict) : Prop := NoDup (keys d).

(** ** The coordinate table and the output records *)

(** One row of the table read by [parse_coordinates], with columns
    [chromosome], [start], [end], [id], [type]. *)
Record Feature : Type := mkFeature {
  chromosome : string;
  start : Z;
  end_ : Z;
  id_ : string;
  type_ : string
}.

Definition DataFrame : Type := list Feature.

(** One appended result: the dictionary with keys [chromosome],
    [window_start], [window_end], [feature_count]. *)
Record WindowCount : Type := mkWindowCount {
  w_chromosome : string;
  window_start : Z;
  window_end : Z;
  feature_count : nat
}.

(** [coordinates_df[coordinates_df['chromosome'] == chrom]] *)
Definition select_chromosome (coordinates_df : DataFrame) (chrom : string)
  : DataFrame :=
  List.filter (fun r => String.eqb (chromosome r) chrom) coordinates_df.

(** The mask [(chrom_data['start'] >= window_start) &
    (chrom_data['start'] < window_end)] on one row. *)
Definition start_mask (window_start window_end : Z) (r : Feature) : bool :=
  (start r >=? window_start) && (start r <? window_end).

(** [len(chrom_data[mask])] *)
Definition count_starts (chrom_data : DataFrame) (window_start window_end : Z)
  : nat :=
  length (List.filter (start_mask window_start window_end) chrom_data).

(** ** count_features_in_windows *)

(** The body of [for i in range(num_full_windows)]. *)
Definition full_window_step (chrom : string) (chrom_data : DataFrame)
    (window_size : Z) (results : list WindowCount) (i : Z)
  : list WindowCount :=
  let window_start := i * window_size in
  let window_end := (i + 1) * window_size in
  let count := count_starts chrom_data window_start window_end in
  results ++ [mkWindowCount chrom window_start window_end count].

(** The body of [for chrom in sorted(chr_lengths.keys())]. *)
Definition chromosome_step (coordinates_df : DataFrame) (chr_lengths : dict)
    (window_size : Z) (results : list WindowCount) (chrom : string)
  : result (list WindowCount) :=
  chr_length ← getitem chr_lengths chrom;
  let chrom_data := select_chromosome coordinates_df chrom in
  num_full_windows ← floordiv chr_length window_size;
  remaining_bases ← pymod chr_length window_size;
  let results :=
    fold_left (full_window_step chrom chrom_data window_size)
              (range num_full_windows) results in
  if remaining_bases >? 0 then
    let window_start := num_full_windows * window_size in
    let window_end := chr_length in
    let count := count_starts chrom_data window_start window_end in
    Ok (results ++ [mkWindowCount chrom window_start window_end count])
  else Ok results.

Definition count_features_in_windows (coordinates_df : DataFrame)
    (chr_lengths : dict) (window_size : Z) : result (list WindowCount) :=
  for_in (sorted (keys chr_lengths))
         (chromosome_step coordinates_df chr_lengths window_size) [].

(** ** The embedded self-test scenario *)

Definition test_coords : DataFrame :=
  [ mkFeature "Chr6" 1000 2000 "ID1" "TYPE1";
    mkFeature "Chr6" 2500 3500 "ID2" "TYPE1";
    mkFeature "Chr6" 9500 11000 "ID3" "TYPE1";
    mkFeature "Chr6" 9750 10500 "ID4" "TYPE1";
    mkFeature "Chr6" 15000 16000 "ID5" "TYPE1";
    mkFeature "Chr7" 500 1500 "ID6" "TYPE1";
    mkFeature "Chr7" 11000 12000 "ID7" "TYPE1" ].

Definition test_chr_lengths : dict := [("Chr6", 20000); ("Chr7", 15000)].

(** ** Vocabulary of the properties *)

(** The windows emitted for one chromosome by one pass of the outer
    loop: the full windows, then the partial one. *)
Definition chromosome_windows (coordinates_df : DataFrame) (chrom : string)
    (chr_length window_size : Z) : list WindowCount :=
  let chrom_data := select_chromosome coordinates_df chrom in
  let num_full_windows := chr_length / window_size in
  let remaining_bases := chr_length mod window_size in
  map (fun i => mkWindowCount chrom (i * window_size) ((i + 1) * window_size)
                  (count_starts chrom_data (i * window_size)
                                           ((i + 1) * window_size)))
      (range num_full_windows)
  ++ (if remaining_bases >? 0 then
        [mkWindowCount chrom (num_full_windows * window_size) chr_length
           (count_starts chrom_data (num_full_windows * window_size)
                                    chr_length)]
      else []).

(** The [i]-th window of a chromosome of length [chr_length]: it starts
    at [i * window_size] and is cut at the chromosome end. *)
Definition window_at (coordinates_df : DataFrame) (chrom : string)
    (chr_length window_size : Z) (i : Z) : WindowCount :=
  let window_start := i * window_size in
  let window_end := Z.min ((i + 1) * window_size) chr_length in
  mkWindowCount chrom window_start window_end
    (count_starts (select_chromosome coordinates_df chrom)
                  window_start window_end).

(** The length stored for a key, for keys known to be present. *)
Definition length_of (chr_lengths : dict) (chrom : string) : Z :=
  match getitem chr_lengths chrom with
  | Ok v => v
  | Raise _ => 0
  end.

(** The output records of one chromosome, in emission order. *)
Definition windows_of (chrom : string) (out : list WindowCount)
  : list WindowCount :=
  List.filter (fun w => String.eqb (w_chromosome w) chrom) out.

(** Row [r] belongs to the chromosome of [w] and starts inside [w]. *)
Definition in_window (w : WindowCount) (r : Feature) : bool :=
  String.eqb (chromosome r) (w_chromosome w)
  && (window_start w <=? start r) && (start r <? window_end w).

(** Row [r] belongs to [chrom] and starts inside [[lo, hi)]. *)
Definition starts_within (chrom : string) (lo hi : Z) (r : Feature) : bool :=
  String.eqb (chromosome r) chrom && (lo <=? start r) && (start r <? hi).

(** The sum of the [feature_count] column. *)
Definition total_count (ws : list WindowCount) : nat :=
  list_sum (map feature_count ws).

(** [ceil(a / b)] for a positive [b]. *)
Definition ceil_div (a b : Z) : Z := (a + b - 1) / b.

(** Strict output order: by chromosome name, then by window start. *)
Definition record_lt (w1 w2 : WindowCount) : Prop :=
  String.ltb (w_chromosome w1) (w_chromosome w2) = true
  \/ (w_chromosome w1 = w_chromosome w2
      /\ window_start w1 < window_start w2).

(** Two rows agree on the columns the counter reads. *)
Definition same_key (r1 r2 : Feature) : Prop :=
  chromosome r1 = chromosome r2 /\ start r1 = start r2.

(** Every stored length is non-negative. *)
Definition lengths_nonneg (chr_lengths : dict) : Prop :=
  Forall (fun kv => 0 <= snd kv) chr_lengths.

(** Python's [d1 == d2] on dictionaries: the same keys with the same
    values, whatever the insertion orders. *)
Definition dict_eq (d1 d2 : dict) : Prop :=
  forall k, getitem d1 k = getitem d2 k.

(** The window boundaries of an output, without the counts. *)
Definition layout (out : list WindowCount) : list (string * Z * Z) :=
  map (fun w => (w_chromosome w, window_start w, window_end w)) out.

(** The record [w1] with the count of [w2] added to its own. *)
Definition add_counts (w1 w2 : WindowCount) : WindowCount :=
  mkWindowCount (w_chromosome w1) (window_start w1) (window_end w1)
                (feature_count w1 + feature_count w2).

(** Row [r] is on a chromosome of the map and starts inside it. *)
Definition in_range (chr_lengths : dict) (r : Feature) : bool :=
  match getitem chr_lengths (chromosome r) with
  | Ok chr_length => (0 <=? start r) && (start r <? chr_length)
  | Raise _ => false
  end.

(** ** parse_chr_lengths *)

(** The result of code that raises exceptions of type [E]. *)
Inductive outcome (E A : Type) : Type :=
  | Returns (a : A)
  | Raises (e : E).

Arguments Returns {E A} a.
Arguments Raises {E A} e.

(** A [for] loop over [xs] threading the state [s]; an exception raised
    by the body leaves the loop. *)
Fixpoint for_each {E A S : Type} (xs : list A)
    (body : S -> A -> outcome E S) (s : S) : outcome E S :=
  match xs with
  | [] => Returns s
  | x :: xs' =>
      match body s x with
      | Returns s' => for_each xs' body s'
      | Raises e => Raises e
      end
  end.

(** [d[k] = v]: an existing key keeps its place and takes the new
    value, a new key is appended. *)
Fixpoint setitem (d : dict) (k : string) (v : Z) : dict :=
  match d with
  | [] => [(k, v)]
  | (k', v') :: d' =>
      if String.eqb k' k then (k', v) :: d' else (k', v') :: setitem d' k v
  end.

(** The exception of [parse_chr_lengths]: raised by the unpacking
    [chrom, length = ...] of a list that has not two elements, and by
    [int] on a string that is no integer. *)
Inductive parse_exn : Type := ValueError.

Section ParseChrLengths.
(** The built-ins of the Python runtime used on each line: [str.strip],
    [str.split] and [int], the last with [None] for its [ValueError]. *)
Variable strip : string -> string.
Variable split : string -> list string.
Variable int : string -> option Z.

(** The body of [for line in f], on the dictionary built so far. *)
Definition parse_line (chr_lengths : dict) (line : string)
  : outcome parse_exn dict :=
  match split (strip line) with
  | [chrom; length] =>
      match int length with
      | Some n => Returns (setitem chr_lengths chrom n)
      | None => Raises ValueError
      end
  | _ => Raises ValueError
  end.

(** [parse_chr_lengths], on the lines of the file. *)
Definition parse_chr_lengths (lines : list string) : outcome parse_exn dict :=
  for_each lines parse_line [].

(** Line [line] assigns the length [v] to the name [k]. *)
Definition assigns (line : string) (k : string) (v : Z) : Prop :=
  exists length, split (strip line) = [k; length] /\ int length = Some v.

End ParseChrLengths.

(** Sample built-ins for plain ASCII input: fields separated by blanks,
    lengths written as decimal numerals. *)
Definition blank_split (s : string) : list string := String.words s.

Definition decimal_int (s : string) : option Z :=
  match s with
  | EmptyString => None
  | _ => option_map Z.of_int (DecimalString.NilEmpty.int_of_string s)
  end.

(** ** The checks of test_window_counting *)

(** The exceptions of the verification loop: [results['chromosome']] on
    a frame built from no record (it has no column), [iloc[-1]] on an
    empty selection, and the two assertions, with the values their
    messages are built from. *)
Inductive test_exn : Type :=
  | ColumnKeyError (column : string)
  | IndexError
  | LastWindowAssertion (chrom : string) (length last_end : Z)
  | BeyondLengthAssertion (chrom : string).

(** The body of [for chrom, length in chr_lengths.items()]. Both
    assertions read [results], the whole table, for the second one too. *)
Definition verify_step (results : list WindowCount) (_ : unit)
    (item : string * Z) : outcome test_exn unit :=
  let '(chrom, length) := item in
  match results with
  | [] => Raises (ColumnKeyError "chromosome")
  | _ :: _ =>
      let chr_results := windows_of chrom results in
      match last chr_results with
      | None => Raises IndexError
      | Some last_window =>
          if negb (window_end last_window =? length) then
            Raises (LastWindowAssertion chrom length (window_end last_window))
          else if negb (forallb (fun w => window_end w <=? length) results)
          then Raises (BeyondLengthAssertion chrom)
          else Returns tt
      end
  end.

(** The verification loop of [test_window_counting], on the table
    returned by the counter and the length map. *)
Definition verify_windows (results : list WindowCount) (chr_lengths : dict)
  : outcome test_exn unit :=
  for_each chr_lengths (verify_step results) tt.

Example test_window_counting :
  count_features_in_windows test_coords test_chr_lengths 10000
  = Ok [ mkWindowCount "Chr6" 0 10000 4;
         mkWindowCount "Chr6" 10000 20000 1;
         mkWindowCount "Chr7" 0 10000 1;
         mkWindowCount "Chr7" 10000 15000 1 ].
Proof. vm_compute. reflexivity. Qed.

(** ** The result monad and the loops *)

Lemma bind_Ok {A B : Type} (a : A) (k : A -> result B) :
  (Ok a ≫= k) = k a.
Proof. reflexivity. Qed.

Lemma floordiv_Ok (a b : Z) : b <> 0 -> floordiv a b = Ok (a / b).
Proof. intros Hb. unfold floordiv. destruct (Z.eqb_spec b 0); [lia | done]. Qed.

Lemma pymod_Ok (a b : Z) : b <> 0 -> pymod a b = Ok (a mod b).
Proof. intros Hb. unfold pymod. destruct (Z.eqb_spec b 0); [lia | done]. Qed.

Lemma fold_left_full_window_step chrom chrom_data W (ixs : list Z) results :
  fold_left (full_window_step chrom chrom_data W) ixs results
  = results ++
    map (fun i => mkWindowCount chrom (i * W) ((i + 1) * W)
                    (count_starts chrom_data (i * W) ((i + 1) * W))) ixs.
Proof.
  revert results. induction ixs as [|i ixs IH]; intros results; simpl.
  - by rewrite app_nil_r.
  - rewrite IH. unfold full_window_step. by rewrite <- app_assoc.
Qed.

Lemma getitem_In (d : dict) (k : string) :
  In k (keys d) -> exists v, getitem d k = Ok v /\ In (k, v) d.
Proof.
  induction d as [|[k' v'] d IH]; simpl; [done|].
  intros Hin. destruct (String.eqb_spec k' k) as [->|Hne].
  - exists v'. auto.
  - destruct Hin as [?|Hin]; [done|].
    destruct (IH Hin) as (v & ? & ?). exists v. auto.
Qed.

Lemma getitem_length_of (d : dict) (k : string) :
  In k (keys d) -> getitem d k = Ok (length_of d k).
Proof.
  intros Hin. destruct (getitem_In d k Hin) as (v & Hv & _).
  unfold length_of. by rewrite Hv.
Qed.

Lemma getitem_not_In (d : dict) (k : string) :
  ~ In k (keys d) -> getitem d k = Raise (KeyError k).
Proof.
  induction d as [|[k' v'] d IH]; simpl; [done|].
  intros Hin. destruct (String.eqb_spec k' k) as [->|Hne]; [tauto|].
  apply IH. tauto.
Qed.

(** One pass of the outer loop, when nothing raises. *)
Lemma chromosome_step_Ok df d W results chrom :
  W <> 0 -> In chrom (keys d) ->
  chromosome_step df d W results chrom
  = Ok (results ++ chromosome_windows df chrom (length_of d chrom) W).
Proof.
  intros HW Hin. unfold chromosome_step.
  rewrite (getitem_length_of d chrom Hin), bind_Ok.
  rewrite (floordiv_Ok _ _ HW), bind_Ok, (pymod_Ok _ _ HW), bind_Ok.
  rewrite fold_left_full_window_step. unfold chromosome_windows.
  destruct (length_of d chrom mod W >? 0); [|by rewrite app_nil_r].
  by rewrite <- app_assoc.
Qed.

Lemma chromosome_step_zero df d results chrom :
  In chrom (keys d) ->
  chromosome_step df d 0 results chrom = Raise ZeroDivisionError.
Proof.
  intros Hin. unfold chromosome_step.
  by rewrite (getitem_length_of d chrom Hin).
Qed.

Lemma for_in_chromosome_step df d W (ks : list string) results :
  W <> 0 -> (forall k, In k ks -> In k (keys d)) ->
  for_in ks (chromosome_step df d W) results
  = Ok (results ++
        flat_map (fun k => chromosome_windows df k (length_of d k) W) ks).
Proof.
  intros HW. revert results.
  induction ks as [|k ks IH]; intros results Hks; simpl.
  - by rewrite app_nil_r.
  - rewrite chromosome_step_Ok by (auto with datatypes).
    rewrite bind_Ok, IH by (intros; apply Hks; auto with datatypes).
    by rewrite <- app_assoc.
Qed.

Lemma sorted_Permutation (l : list string) : sorted l ≡ₚ l.
Proof. apply merge_sort_Permutation. Qed.

Lemma In_sorted (l : list string) (k : string) : In k (sorted l) <-> In k l.
Proof.
  rewrite <- !list_elem_of_In. by rewrite sorted_Permutation.
Qed.

(** The function returns for every non-zero window size, and its value
    is the concatenation of the per-chromosome window lists. *)
Lemma count_features_in_windows_Ok df d W :
  W <> 0 ->
  count_features_in_windows df d W
  = Ok (flat_map (fun k => chromosome_windows df k (length_of d k) W)
                 (sorted (keys d))).
Proof.
  intros HW. unfold count_features_in_windows.
  rewrite for_in_chromosome_step; [done | done |].
  intros k. by rewrite In_sorted.
Qed.

(** ** Arithmetic of [range], [//], [%] and [ceil_div] *)

Lemma range_nonpos (n : Z) : n <= 0 -> range n = [].
Proof.
  intros Hn. unfold range. by replace (Z.to_nat n) with 0%nat by lia.
Qed.

Lemma range_succ (n : Z) : 0 <= n -> range (n + 1) = range n ++ [n].
Proof.
  intros Hn. unfold range.
  replace (Z.to_nat (n + 1)) with (S (Z.to_nat n)) by lia.
  rewrite seq_S, map_app. simpl. by rewrite Z2Nat.id.
Qed.

Lemma In_range (n i : Z) : In i (range n) <-> 0 <= i < n.
Proof.
  unfold range. rewrite in_map_iff. split.
  - intros (j & <- & Hj). apply in_seq in Hj. lia.
  - intros Hi. exists (Z.to_nat i). split; [lia|]. apply in_seq. lia.
Qed.

Lemma length_range (n : Z) : length (range n) = Z.to_nat n.
Proof. unfold range. by rewrite length_map, length_seq. Qed.

Lemma lookup_range (n : Z) (i : nat) (x : Z) :
  range n !! i = Some x -> x = Z.of_nat i /\ Z.of_nat i < n.
Proof.
  unfold range. rewrite list_lookup_fmap. intros Hx.
  destruct (seq 0 (Z.to_nat n) !! i) as [j|] eqn:Hj; [|done].
  apply lookup_seq in Hj as [-> Hlt]. simpl in Hx. inversion Hx. lia.
Qed.

(** [ceil_div a b] is the least [q] with [a <= q * b]. *)
Lemma ceil_div_spec (a b : Z) :
  0 < b -> (ceil_div a b - 1) * b < a <= ceil_div a b * b.
Proof.
  intros Hb. unfold ceil_div.
  pose proof (Z.div_mod (a + b - 1) b ltac:(lia)) as Hdm.
  pose proof (Z.mod_pos_bound (a + b - 1) b Hb) as Hm. nia.
Qed.

Lemma ceil_div_unique (a b q : Z) :
  0 < b -> (q - 1) * b < a <= q * b -> ceil_div a b = q.
Proof.
  intros Hb Hq. pose proof (ceil_div_spec a b Hb) as Hc. nia.
Qed.

Lemma ceil_div_floor (a b : Z) :
  0 < b -> ceil_div a b = a / b + (if a mod b >? 0 then 1 else 0).
Proof.
  intros Hb. apply ceil_div_unique; [done|].
  pose proof (Z.div_mod a b ltac:(lia)) as Hdm.
  pose proof (Z.mod_pos_bound a b Hb) as Hm.
  destruct (Z.gtb_spec (a mod b) 0); nia.
Qed.

(** A negative window size on a non-negative length: no full window and
    no positive remainder. *)
Lemma floor_neg_divisor (a b : Z) :
  b < 0 -> 0 <= a -> a / b <= 0 /\ a mod b <= 0.
Proof.
  intros Hb Ha.
  pose proof (Z.div_mod a b ltac:(lia)) as Hdm.
  pose proof (Z.mod_neg_bound a b Hb) as Hm. nia.
Qed.

(** ** The windows of one chromosome *)

Section OneChromosome.
Variables (df : DataFrame) (chrom : string) (L W : Z).

Lemma chromosome_windows_chrom (w : WindowCount) :
  In w (chromosome_windows df chrom L W) -> w_chromosome w = chrom.
Proof.
  unfold chromosome_windows. rewrite in_app_iff, in_map_iff.
  intros [(i & <- & _)|Hw]; [done|].
  destruct (L mod W >? 0); [|done]. by destruct Hw as [<-|[]].
Qed.

Lemma chromosome_windows_count (w : WindowCount) :
  In w (chromosome_windows df chrom L W) ->
  feature_count w
  = count_starts (select_chromosome df chrom)
                 (window_start w) (window_end w).
Proof.
  unfold chromosome_windows. rewrite in_app_iff, in_map_iff.
  intros [(i & <- & _)|Hw]; [done|].
  destruct (L mod W >? 0); [|done]. by destruct Hw as [<-|[]].
Qed.

(** With a negative window size no window is emitted for a
    non-negative length. *)
Lemma chromosome_windows_neg_size :
  W < 0 -> 0 <= L -> chromosome_windows df chrom L W = [].
Proof.
  intros HW HL. destruct (floor_neg_divisor L W HW HL) as [Hq Hr].
  unfold chromosome_windows. rewrite (range_nonpos _ Hq). simpl.
  destruct (Z.gtb_spec (L mod W) 0); [lia | done].
Qed.

Hypothesis W_pos : 0 < W.

(** A negative length yields at most the trailing window. *)
Lemma chromosome_windows_neg_length :
  L < 0 ->
  chromosome_windows df chrom L W = []
  \/ exists c, chromosome_windows df chrom L W
               = [mkWindowCount chrom (L / W * W) L c].
Proof.
  intros HL. unfold chromosome_windows.
  assert (L / W < 0) as Hq by (apply Z.div_lt_upper_bound; lia).
  rewrite range_nonpos by lia. simpl.
  destruct (L mod W >? 0); eauto.
Qed.

Hypothesis L_nonneg : 0 <= L.

(** Closed form: window [i] is [[i * W, min ((i + 1) * W) L)], for
    [i] below [ceil_div L W]. *)
Lemma chromosome_windows_closed :
  chromosome_windows df chrom L W
  = map (window_at df chrom L W) (range (ceil_div L W)).
Proof.
  pose proof (Z.div_mod L W ltac:(lia)) as Hdm.
  pose proof (Z.mod_pos_bound L W W_pos) as Hm.
  assert (0 <= L / W) as Hq by (apply Z.div_pos; lia).
  assert (map (fun i => mkWindowCount chrom (i * W) ((i + 1) * W)
             (count_starts (select_chromosome df chrom) (i * W)
                ((i + 1) * W))) (range (L / W))
          = map (window_at df chrom L W) (range (L / W))) as Hfull.
  { apply map_ext_in. intros i Hi%In_range. unfold window_at.
    by replace (Z.min ((i + 1) * W) L) with ((i + 1) * W) by nia. }
  unfold chromosome_windows. rewrite Hfull, (ceil_div_floor L W W_pos).
  destruct (Z.gtb_spec (L mod W) 0) as [Hr|Hr].
  - rewrite (range_succ _ Hq), map_app. simpl. unfold window_at.
    by replace (Z.min ((L / W + 1) * W) L) with L by nia.
  - by rewrite Z.add_0_r, app_nil_r.
Qed.

Lemma length_chromosome_windows :
  length (chromosome_windows df chrom L W) = Z.to_nat (ceil_div L W).
Proof.
  by rewrite chromosome_windows_closed, length_map, length_range.
Qed.

Lemma lookup_chromosome_windows (i : nat) (w : WindowCount) :
  chromosome_windows df chrom L W !! i = Some w ->
  w = window_at df chrom L W (Z.of_nat i) /\ Z.of_nat i * W < L.
Proof.
  rewrite chromosome_windows_closed, list_lookup_fmap. intros Hw.
  destruct (range (ceil_div L W) !! i) as [x|] eqn:Hx; [|done].
  apply lookup_range in Hx as [-> Hlt]. simpl in Hw.
  split; [congruence|].
  pose proof (ceil_div_spec L W W_pos). nia.
Qed.

End OneChromosome.

(** ** Selecting one chromosome of the output *)

Lemma filter_all {A : Type} (f : A -> bool) (l : list A) :
  (forall x, In x l -> f x = true) -> List.filter f l = l.
Proof.
  induction l as [|x l IH]; simpl; [done|]. intros Hf.
  rewrite (Hf x) by auto. f_equal. apply IH. auto.
Qed.

Lemma filter_none {A : Type} (f : A -> bool) (l : list A) :
  (forall x, In x l -> f x = false) -> List.filter f l = [].
Proof.
  induction l as [|x l IH]; simpl; [done|]. intros Hf.
  rewrite (Hf x) by auto. apply IH. auto.
Qed.

Section WindowsOf.
Variable g : string -> list WindowCount.
Hypothesis g_chrom : forall k w, In w (g k) -> w_chromosome w = k.

Lemma windows_of_absent (chrom : string) (ks : list string) :
  ~ In chrom ks -> windows_of chrom (flat_map g ks) = [].
Proof.
  intros Hk. apply filter_none. intros w (k & Hin & Hw)%in_flat_map.
  apply String.eqb_neq. rewrite (g_chrom k w Hw). congruence.
Qed.

Lemma windows_of_present (chrom : string) (ks : list string) :
  NoDup ks -> In chrom ks -> windows_of chrom (flat_map g ks) = g chrom.
Proof.
  induction 1 as [|k ks Hk Hnd IH]; simpl; [done|].
  rewrite list_elem_of_In in Hk.
  pose proof (windows_of_absent k ks Hk) as Habs.
  unfold windows_of in *. rewrite List.filter_app.
  intros [->|Hin].
  - rewrite Habs, app_nil_r.
    apply filter_all. intros w Hw. apply String.eqb_eq. eauto.
  - rewrite (IH Hin). rewrite filter_none; [done|].
    intros w Hw. apply String.eqb_neq. rewrite (g_chrom k w Hw).
    congruence.
Qed.
End WindowsOf.

Lemma NoDup_sorted_keys (d : dict) : dict_wf d -> NoDup (sorted (keys d)).
Proof. unfold dict_wf. by rewrite sorted_Permutation. Qed.

Lemma getitem_In_wf (d : dict) (k : string) (v : Z) :
  getitem d k = Ok v -> In k (keys d) /\ length_of d k = v.
Proof.
  intros Hv. split.
  - destruct (in_dec String.string_dec k (keys d)) as [|Hn]; [done|].
    rewrite (getitem_not_In d k Hn) in Hv. done.
  - unfold length_of. by rewrite Hv.
Qed.

(** The records of a chromosome of the map are exactly its window list. *)
Lemma windows_of_output df d W chrom L out :
  dict_wf d -> W <> 0 -> getitem d chrom = Ok L ->
  count_features_in_windows df d W = Ok out ->
  windows_of chrom out = chromosome_windows df chrom L W.
Proof.
  intros Hwf HW HL Hout. rewrite count_features_in_windows_Ok in Hout by done.
  injection Hout as <-. destruct (getitem_In_wf d chrom L HL) as [Hin <-].
  apply (windows_of_present
           (fun k => chromosome_windows df k (length_of d k) W)).
  - intros k w. apply chromosome_windows_chrom.
  - by apply NoDup_sorted_keys.
  - by apply In_sorted.
Qed.

(** Every output record belongs to a chromosome of the map and lies in
    that chromosome's window list. *)
Lemma In_output df d W out w :
  W <> 0 -> count_features_in_windows df d W = Ok out -> In w out ->
  In (w_chromosome w) (keys d)
  /\ In w (chromosome_windows df (w_chromosome w)
             (length_of d (w_chromosome w)) W).
Proof.
  intros HW Hout Hw. rewrite count_features_in_windows_Ok in Hout by done.
  injection Hout as <-. apply in_flat_map in Hw as (k & Hk & Hw).
  rewrite (chromosome_windows_chrom _ _ _ _ _ Hw).
  split; [by apply In_sorted | done].
Qed.

(** ** Counting *)

Lemma filter_filter {A : Type} (f g : A -> bool) (l : list A) :
  List.filter f (List.filter g l) = List.filter (fun x => g x && f x) l.
Proof.
  induction l as [|x l IH]; simpl; [done|].
  destruct (g x); simpl; [|done]. destruct (f x); by rewrite IH.
Qed.

(** The count computed on the chromosome's rows is the number of rows of
    the whole table on that chromosome with a start in the window. *)
Lemma count_starts_select (df : DataFrame) (chrom : string) (lo hi : Z) :
  count_starts (select_chromosome df chrom) lo hi
  = length (List.filter (starts_within chrom lo hi) df).
Proof.
  unfold count_starts, select_chromosome. rewrite filter_filter.
  f_equal. apply filter_ext. intros r.
  unfold start_mask, starts_within. by rewrite Z.geb_leb, andb_assoc.
Qed.

Lemma chromosome_windows_nonempty df chrom L W w :
  0 < W -> In w (chromosome_windows df chrom L W) ->
  window_start w < window_end w.
Proof.
  intros HW. unfold chromosome_windows. rewrite in_app_iff, in_map_iff.
  intros [(i & <- & _)|Hw]; simpl; [lia|].
  destruct (Z.gtb_spec (L mod W) 0) as [Hr|]; [|done].
  destruct Hw as [<-|[]]. simpl.
  pose proof (Z.div_mod L W ltac:(lia)). lia.
Qed.

(** C1. Whenever the window size is not zero the function returns, and
    every record [w] it emits belongs to a chromosome of the length map
    and carries as [feature_count] the number of rows of the coordinate
    table on that chromosome whose start [s] satisfies
    [window_start w <= s < window_end w]. A row starting exactly at the
    start of a (non-empty) window is counted there, a row starting
    exactly at the end of a window is not counted in it; for a positive
    window size every emitted window is non-empty. *)
Theorem feature_count_is_number_of_starts df d W :
  W <> 0 ->
  exists out,
    count_features_in_windows df d W = Ok out
    /\ forall w, In w out ->
         In (w_chromosome w) (keys d)
         /\ feature_count w = length (List.filter (in_window w) df)
         /\ (0 < W -> window_start w < window_end w)
         /\ forall r, chromosome r = w_chromosome w ->
              (start r = window_start w ->
               window_start w < window_end w -> in_window w r = true)
              /\ (start r = window_end w -> in_window w r = false).
Proof.
  intros HW. eexists. split; [by apply count_features_in_windows_Ok|].
  intros w Hw.
  destruct (In_output df d W _ w HW (count_features_in_windows_Ok df d W HW) Hw)
    as [Hk Hcw].
  split; [done|]. split; [|split].
  - rewrite (chromosome_windows_count _ _ _ _ _ Hcw).
    apply count_starts_select.
  - intros HWpos. by eapply chromosome_windows_nonempty.
  - intros r Hr. unfold in_window. rewrite Hr, String.eqb_refl. simpl.
    split.
    + intros -> Hlt. rewrite Z.leb_refl. simpl. by apply Z.ltb_lt.
    + intros ->. rewrite Z.ltb_irrefl. apply andb_false_r.
Qed.

Lemma feature_count_is_number_of_starts_witness :
  exists out,
    count_features_in_windows test_coords test_chr_lengths 10000 = Ok out
    /\ forall w, In w out ->
         In (w_chromosome w) (keys test_chr_lengths)
         /\ feature_count w = length (List.filter (in_window w) test_coords)
         /\ (0 < 10000 -> window_start w < window_end w)
         /\ forall r, chromosome r = w_chromosome w ->
              (start r = window_start w ->
               window_start w < window_end w -> in_window w r = true)
              /\ (start r = window_end w -> in_window w r = false).
Proof.
  apply (feature_count_is_number_of_starts test_coords test_chr_lengths 10000).
  lia.
Defined.

(** ** Number of windows *)

Lemma ceil_div_pos (a b : Z) : 0 < b -> 0 < a -> 0 < ceil_div a b.
Proof. intros Hb Ha. pose proof (ceil_div_spec a b Hb). nia. Qed.

Lemma last_chromosome_windows df chrom L W :
  0 < W -> 0 < L ->
  exists w, last (chromosome_windows df chrom L W) = Some w
            /\ window_start w = (ceil_div L W - 1) * W
            /\ window_end w = L.
Proof.
  intros HW HL. rewrite chromosome_windows_closed by lia.
  pose proof (ceil_div_pos L W HW HL) as Hc.
  pose proof (ceil_div_spec L W HW) as Hs.
  assert (range (ceil_div L W)
          = range (ceil_div L W - 1) ++ [ceil_div L W - 1]) as ->.
  { rewrite <- range_succ by lia. f_equal. lia. }
  rewrite map_app. simpl. rewrite last_snoc.
  eexists. split; [done|]. simpl. split; [done|]. lia.
Qed.

(** C2. For a chromosome of the length map with length [L] and a
    positive window size [W] the function returns, and the records of
    that chromosome are: [ceil (L / W)] many, the last one ending at
    [L], when [L > 0]; none when [L = 0]; the single window [[0, L)]
    when [0 < L < W]. *)
Theorem number_of_windows df d W chrom L :
  dict_wf d -> getitem d chrom = Ok L -> 0 < W ->
  exists out,
    count_features_in_windows df d W = Ok out
    /\ (0 < L ->
        length (windows_of chrom out) = Z.to_nat (ceil_div L W)
        /\ exists w, last (windows_of chrom out) = Some w
                     /\ window_end w = L)
    /\ (L = 0 -> windows_of chrom out = [])
    /\ (0 < L < W ->
        exists c, windows_of chrom out = [mkWindowCount chrom 0 L c]).
Proof.
  intros Hwf HL HW. eexists. split; [apply count_features_in_windows_Ok; lia|].
  rewrite (windows_of_output df d W chrom L _ Hwf ltac:(lia) HL
             (count_features_in_windows_Ok df d W ltac:(lia))).
  split; [|split].
  - intros HLpos. split; [apply length_chromosome_windows; lia|].
    destruct (last_chromosome_windows df chrom L W HW HLpos)
      as (w & Hw & _ & He). eauto.
  - intros ->. rewrite chromosome_windows_closed by lia.
    by rewrite (ceil_div_unique 0 W 0) by lia.
  - intros Hlt. rewrite chromosome_windows_closed by lia.
    rewrite (ceil_div_unique L W 1) by lia. simpl. unfold window_at.
    simpl. rewrite Z.min_r by lia. eauto.
Qed.

Lemma number_of_windows_witness :
  exists out,
    count_features_in_windows test_coords test_chr_lengths 10000 = Ok out
    /\ (0 < 15000 ->
        length (windows_of "Chr7" out) = Z.to_nat (ceil_div 15000 10000)
        /\ exists w, last (windows_of "Chr7" out) = Some w
                     /\ window_end w = 15000)
    /\ (15000 = 0 -> windows_of "Chr7" out = [])
    /\ (0 < 15000 < 10000 ->
        exists c, windows_of "Chr7" out = [mkWindowCount "Chr7" 0 15000 c]).
Proof.
  apply (number_of_windows test_coords test_chr_lengths 10000 "Chr7" 15000).
  - unfold dict_wf. compute_done.
  - reflexivity.
  - lia.
Defined.

(** ** Tiling *)

Lemma chromosome_windows_full_width df chrom L W w :
  In w (map (fun i => mkWindowCount chrom (i * W) ((i + 1) * W)
              (count_starts (select_chromosome df chrom) (i * W)
                 ((i + 1) * W))) (range (L / W))) ->
  window_end w - window_start w = W.
Proof. rewrite in_map_iff. intros (i & <- & _). simpl. lia. Qed.

(** C3. For a chromosome of the length map with length [L > 0] and a
    positive window size [W] the function returns, and the records of
    that chromosome, in emission order, tile [[0, L)]: the first starts
    at [0]; each one ends where the next one starts; the last ends at
    [L]; every window is a non-empty half-open interval lying wholly
    before every later one. When [W] divides [L] every window has width
    [W]; otherwise the windows are full-width ones followed by exactly
    one trailing window of width [L mod W], which is positive and
    smaller than [W]. *)
Theorem windows_tile_chromosome df d W chrom L :
  dict_wf d -> getitem d chrom = Ok L -> 0 < L -> 0 < W ->
  exists out,
    count_features_in_windows df d W = Ok out
    /\ (exists w, head (windows_of chrom out) = Some w /\ window_start w = 0)
    /\ (forall (i : nat) a b,
          windows_of chrom out !! i = Some a ->
          windows_of chrom out !! S i = Some b ->
          window_end a = window_start b)
    /\ (exists w, last (windows_of chrom out) = Some w /\ window_end w = L)
    /\ (forall (i j : nat) a b,
          (i < j)%nat ->
          windows_of chrom out !! i = Some a ->
          windows_of chrom out !! j = Some b ->
          window_start a < window_end a /\ window_end a <= window_start b)
    /\ (L mod W = 0 ->
        forall w, In w (windows_of chrom out) ->
                  window_end w - window_start w = W)
    /\ (L mod W <> 0 ->
        exists front w,
          windows_of chrom out = front ++ [w]
          /\ (forall w', In w' front -> window_end w' - window_start w' = W)
          /\ window_end w - window_start w = L mod W
          /\ 0 < L mod W < W).
Proof.
  intros Hwf HL HLpos HW.
  eexists. split; [apply count_features_in_windows_Ok; lia|].
  rewrite (windows_of_output df d W chrom L _ Hwf ltac:(lia) HL
             (count_features_in_windows_Ok df d W ltac:(lia))).
  pose proof (Z.div_mod L W ltac:(lia)) as Hdm.
  pose proof (Z.mod_pos_bound L W HW) as Hm.
  split; [|split; [|split; [|split; [|split]]]].
  - assert (is_Some (chromosome_windows df chrom L W !! 0%nat)) as [w Hw].
    { apply lookup_lt_is_Some_2. rewrite length_chromosome_windows by lia.
      pose proof (ceil_div_pos L W HW HLpos). lia. }
    exists w. rewrite head_lookup. split; [done|].
    apply lookup_chromosome_windows in Hw as [-> _]; [|lia..].
    simpl. lia.
  - intros i a b Ha Hb.
    apply lookup_chromosome_windows in Ha as [-> Hai]; [|lia..].
    apply lookup_chromosome_windows in Hb as [-> Hbi]; [|lia..].
    simpl. lia.
  - destruct (last_chromosome_windows df chrom L W HW HLpos)
      as (w & Hw & _ & He). eauto.
  - intros i j a b Hij Ha Hb.
    apply lookup_chromosome_windows in Ha as [-> Hai]; [|lia..].
    apply lookup_chromosome_windows in Hb as [-> Hbi]; [|lia..].
    simpl. nia.
  - intros Hr w Hw. unfold chromosome_windows in Hw. rewrite Hr in Hw.
    simpl in Hw. rewrite app_nil_r in Hw.
    by eapply chromosome_windows_full_width.
  - intros Hr. unfold chromosome_windows.
    destruct (Z.gtb_spec (L mod W) 0) as [_|]; [|lia].
    eexists _, _. split; [done|]. split; [|simpl; lia].
    intros w' Hw'. by eapply chromosome_windows_full_width.
Qed.

Lemma windows_tile_chromosome_witness :
  exists out,
    count_features_in_windows test_coords test_chr_lengths 10000 = Ok out
    /\ (exists w, head (windows_of "Chr7" out) = Some w /\ window_start w = 0)
    /\ (forall (i : nat) a b,
          windows_of "Chr7" out !! i = Some a ->
          windows_of "Chr7" out !! S i = Some b ->
          window_end a = window_start b)
    /\ (exists w, last (windows_of "Chr7" out) = Some w
                  /\ window_end w = 15000)
    /\ (forall (i j : nat) a b,
          (i < j)%nat ->
          windows_of "Chr7" out !! i = Some a ->
          windows_of "Chr7" out !! j = Some b ->
          window_start a < window_end a /\ window_end a <= window_start b)
    /\ (15000 mod 10000 = 0 ->
        forall w, In w (windows_of "Chr7" out) ->
                  window_end w - window_start w = 10000)
    /\ (15000 mod 10000 <> 0 ->
        exists front w,
          windows_of "Chr7" out = front ++ [w]
          /\ (forall w', In w' front ->
                         window_end w' - window_start w' = 10000)
          /\ window_end w - window_start w = 15000 mod 10000
          /\ 0 < 15000 mod 10000 < 10000).
Proof.
  apply (windows_tile_chromosome test_coords test_chr_lengths 10000
           "Chr7" 15000).
  - unfold dict_wf. compute_done.
  - reflexivity.
  - lia.
  - lia.
Defined.

(** ** Every in-range feature is counted once *)

Lemma count_starts_split (data : DataFrame) (a b c : Z) :
  a <= b <= c ->
  (count_starts data a b + count_starts data b c)%nat = count_starts data a c.
Proof.
  intros Habc. unfold count_starts.
  induction data as [|r data IH]; simpl; [done|].
  unfold start_mask in *. rewrite !Z.geb_leb.
  destruct (Z.leb_spec a (start r)), (Z.ltb_spec (start r) b),
    (Z.leb_spec b (start r)), (Z.ltb_spec (start r) c);
    simpl; lia.
Qed.

Lemma count_starts_none (data : DataFrame) (lo hi : Z) :
  (forall r, In r data -> ~ lo <= start r < hi) ->
  count_starts data lo hi = 0%nat.
Proof.
  intros Hnone. unfold count_starts. rewrite filter_none; [done|].
  intros r Hr. specialize (Hnone r Hr). unfold start_mask.
  rewrite Z.geb_leb.
  destruct (Z.leb_spec lo (start r)), (Z.ltb_spec (start r) hi);
    simpl; try done; lia.
Qed.

Lemma total_count_app (ws1 ws2 : list WindowCount) :
  total_count (ws1 ++ ws2) = (total_count ws1 + total_count ws2)%nat.
Proof. unfold total_count. by rewrite map_app, list_sum_app. Qed.

Lemma chromosome_windows_end_le df chrom L W w :
  0 < W -> In w (chromosome_windows df chrom L W) -> window_end w <= L.
Proof.
  intros HW. unfold chromosome_windows. rewrite in_app_iff, in_map_iff.
  pose proof (Z.div_mod L W ltac:(lia)) as Hdm.
  pose proof (Z.mod_pos_bound L W HW) as Hm.
  intros [(i & <- & Hi%In_range)|Hw]; simpl; [nia|].
  destruct (L mod W >? 0); [|done]. destruct Hw as [<-|[]]. simpl. lia.
Qed.

Section Partition.
Variables (df : DataFrame) (chrom : string) (L W : Z).
Hypothesis W_pos : 0 < W.
Hypothesis L_nonneg : 0 <= L.

(** The first [m] windows count the features starting below
    [min (m * W) L]. *)
Lemma total_count_prefix (m : nat) :
  Z.of_nat m <= ceil_div L W ->
  total_count (map (window_at df chrom L W) (range (Z.of_nat m)))
  = count_starts (select_chromosome df chrom) 0 (Z.min (Z.of_nat m * W) L).
Proof.
  pose proof (ceil_div_spec L W W_pos) as Hc.
  induction m as [|m IH]; intros Hm.
  - simpl. symmetry. apply count_starts_none. intros r _. lia.
  - rewrite Nat2Z.inj_succ, <- Z.add_1_r, range_succ by lia.
    rewrite map_app, total_count_app, IH by lia.
    unfold total_count, window_at. simpl. rewrite Nat.add_0_r.
    replace (Z.min (Z.of_nat m * W) L) with (Z.of_nat m * W) by nia.
    apply count_starts_split. nia.
Qed.

Lemma total_count_chromosome_windows :
  total_count (chromosome_windows df chrom L W)
  = length (List.filter (starts_within chrom 0 L) df).
Proof.
  pose proof (ceil_div_spec L W W_pos) as Hc.
  assert (0 <= ceil_div L W) as Hc0 by nia.
  rewrite chromosome_windows_closed, <- count_starts_select by done.
  rewrite <- (Z2Nat.id (ceil_div L W)) at 1 by done.
  rewrite total_count_prefix by lia. f_equal. lia.
Qed.

Variable r : Feature.
Hypothesis r_chrom : chromosome r = chrom.
Hypothesis r_nonneg : 0 <= start r.

(** Among the first [m] windows, [r] lies in one exactly when it starts
    below [min (m * W) L]. *)
Lemma windows_containing_prefix (m : nat) :
  Z.of_nat m <= ceil_div L W ->
  length (List.filter (fun w => in_window w r)
            (map (window_at df chrom L W) (range (Z.of_nat m))))
  = if start r <? Z.min (Z.of_nat m * W) L then 1%nat else 0%nat.
Proof.
  pose proof (ceil_div_spec L W W_pos) as Hc.
  induction m as [|m IH]; intros Hm.
  - rewrite range_nonpos by lia.
    destruct (Z.ltb_spec (start r) (Z.min (Z.of_nat 0 * W) L)); [lia | done].
  - rewrite Nat2Z.inj_succ, <- Z.add_1_r, range_succ by lia.
    rewrite map_app, List.filter_app, length_app, IH by lia.
    simpl. unfold in_window, window_at. simpl.
    rewrite r_chrom, String.eqb_refl. simpl.
    destruct (Z.ltb_spec (start r) (Z.min (Z.of_nat m * W) L)),
      (Z.leb_spec (Z.of_nat m * W) (start r)),
      (Z.ltb_spec (start r) (Z.min ((Z.of_nat m + 1) * W) L));
      simpl; try done; nia.
Qed.

Lemma windows_containing_in_range :
  start r < L ->
  length (List.filter (fun w => in_window w r)
            (chromosome_windows df chrom L W)) = 1%nat.
Proof.
  intros Hlt. pose proof (ceil_div_spec L W W_pos) as Hc.
  assert (0 <= ceil_div L W) as Hc0 by nia.
  rewrite chromosome_windows_closed by done.
  rewrite <- (Z2Nat.id (ceil_div L W)) at 1 by done.
  rewrite windows_containing_prefix by lia.
  destruct (Z.ltb_spec (start r)
              (Z.min (Z.of_nat (Z.to_nat (ceil_div L W)) * W) L));
    [done | lia].
Qed.

End Partition.

Lemma total_count_zero (ws : list WindowCount) :
  (forall w, In w ws -> feature_count w = 0%nat) -> total_count ws = 0%nat.
Proof.
  unfold total_count. induction ws as [|w ws IH]; simpl; [done|].
  intros Hz. rewrite (Hz w), IH by auto. done.
Qed.

Lemma filter_in_window_windows_of (r : Feature) (out : list WindowCount) :
  List.filter (fun w => in_window w r) (windows_of (chromosome r) out)
  = List.filter (fun w => in_window w r) out.
Proof.
  unfold windows_of. rewrite filter_filter. apply filter_ext. intros w.
  unfold in_window. rewrite (String.eqb_sym (chromosome r)).
  by destruct (String.eqb (w_chromosome w) (chromosome r)).
Qed.

(** C4. For a chromosome of the length map with length [L] and a
    positive window size the function returns, and the feature counts of
    that chromosome's records add up to the number of rows of the table
    on that chromosome with [0 <= start < L]. Such a row lies in exactly
    one emitted window, and a row with [start >= L] lies in none. The
    length is taken non-negative, or else every start is. *)
Theorem counts_partition_features df d W chrom L :
  dict_wf d -> getitem d chrom = Ok L -> 0 < W ->
  (0 <= L \/ Forall (fun r => 0 <= start r) df) ->
  exists out,
    count_features_in_windows df d W = Ok out
    /\ total_count (windows_of chrom out)
       = length (List.filter (starts_within chrom 0 L) df)
    /\ forall r, chromosome r = chrom ->
         (0 <= start r < L ->
          length (List.filter (fun w => in_window w r) out) = 1%nat)
         /\ (L <= start r -> forall w, In w out -> in_window w r = false).
Proof.
  intros Hwf HL HW Hdom.
  pose proof (count_features_in_windows_Ok df d W ltac:(lia)) as Hout.
  eexists. split; [exact Hout|].
  pose proof (windows_of_output df d W chrom L _ Hwf ltac:(lia) HL Hout)
    as Hws.
  split.
  - rewrite Hws. destruct (Z.le_gt_cases 0 L) as [HL0|HLneg].
    { by apply total_count_chromosome_windows. }
    destruct Hdom as [?|Hstarts]; [lia|].
    rewrite total_count_zero, filter_none; [done | |].
    + intros r _. unfold starts_within.
      destruct (Z.leb_spec 0 (start r)), (Z.ltb_spec (start r) L);
        try apply andb_false_r; lia.
    + intros w Hw. rewrite (chromosome_windows_count _ _ _ _ _ Hw).
      apply count_starts_none. intros r Hr.
      apply filter_In in Hr as [Hr _].
      rewrite Forall_forall in Hstarts.
      pose proof (Hstarts r ltac:(by apply list_elem_of_In)).
      pose proof (chromosome_windows_end_le _ _ _ _ _ HW Hw). lia.
  - intros r Hr. split.
    + intros Hin. rewrite <- filter_in_window_windows_of, Hr, Hws.
      apply windows_containing_in_range; first [done | lia].
    + intros Hge w Hw. unfold in_window.
      destruct (String.eqb_spec (chromosome r) (w_chromosome w)) as [Heq|];
        [|done].
      destruct (In_output df d W _ w ltac:(lia) Hout Hw) as [_ Hcw].
      rewrite <- Heq, Hr in Hcw.
      destruct (getitem_In_wf d chrom L HL) as [_ HLof].
      rewrite HLof in Hcw.
      pose proof (chromosome_windows_end_le _ _ _ _ _ HW Hcw).
      destruct (Z.ltb_spec (start r) (window_end w)); [lia|].
      apply andb_false_r.
Qed.

Lemma counts_partition_features_witness :
  exists out,
    count_features_in_windows test_coords test_chr_lengths 10000 = Ok out
    /\ total_count (windows_of "Chr6" out)
       = length (List.filter (starts_within "Chr6" 0 20000) test_coords)
    /\ forall r, chromosome r = "Chr6" ->
         (0 <= start r < 20000 ->
          length (List.filter (fun w => in_window w r) out) = 1%nat)
         /\ (20000 <= start r ->
             forall w, In w out -> in_window w r = false).
Proof.
  apply (counts_partition_features test_coords test_chr_lengths 10000
           "Chr6" 20000).
  - unfold dict_wf. compute_done.
  - reflexivity.
  - lia.
  - left. lia.
Defined.

(** ** Output order *)

Lemma StronglySorted_seq (a m : nat) : StronglySorted lt (seq a m).
Proof.
  revert a. induction m as [|m IH]; intros a; simpl; constructor; [done|].
  apply Forall_forall. intros x Hx%list_elem_of_In%in_seq. lia.
Qed.

Lemma StronglySorted_range (n : Z) : StronglySorted Z.lt (range n).
Proof.
  unfold range.
  apply (StronglySorted_fmap Z.of_nat lt Z.lt); [lia|].
  apply StronglySorted_seq.
Qed.

Lemma StronglySorted_weaken {A : Type} (R1 R2 : relation A) (l : list A) :
  (forall x y, In x l -> In y l -> R1 x y -> R2 x y) ->
  StronglySorted R1 l -> StronglySorted R2 l.
Proof.
  intros HR Hl. induction Hl as [|x l Hl IH Hx]; constructor.
  - apply IH. intros y z Hy Hz. apply HR; by right.
  - rewrite Forall_forall in *. intros y Hy. apply HR; [by left | |by auto].
    right. by apply list_elem_of_In.
Qed.

(** With a positive window size the windows of a chromosome come in
    increasing order of their starts, whatever the length. *)
Lemma chromosome_windows_sorted df chrom L W :
  0 < W ->
  StronglySorted (fun a b => window_start a < window_start b)
                 (chromosome_windows df chrom L W).
Proof.
  intros HW. destruct (Z.le_gt_cases 0 L) as [HL|HL].
  - rewrite chromosome_windows_closed by done.
    apply (StronglySorted_fmap _ Z.lt); [|apply StronglySorted_range].
    intros i j Hij. simpl. nia.
  - destruct (chromosome_windows_neg_length df chrom L W HW HL)
      as [->|[c ->]]; repeat constructor.
Qed.

Lemma le_ne_ltb (a b : string) :
  String.le a b -> a <> b -> String.ltb a b = true.
Proof.
  unfold String.le, String.leb, String.ltb. intros Hle Hne.
  destruct (String.compare a b) eqn:Hc; [|done..].
  by apply String.compare_eq_iff in Hc.
Qed.

Section OutputOrder.
Variable g : string -> list WindowCount.
Hypothesis g_chrom : forall k w, In w (g k) -> w_chromosome w = k.

Lemma flat_map_sorted (ks : list string) :
  StronglySorted String.le ks -> NoDup ks ->
  (forall k, In k ks ->
     StronglySorted (fun a b => window_start a < window_start b) (g k)) ->
  StronglySorted record_lt (flat_map g ks).
Proof.
  induction 1 as [|k ks Hks IH Hk]; intros Hnd Hg; simpl; [constructor|].
  apply NoDup_cons in Hnd as [Hk' Hnd].
  apply StronglySorted_app. split; [|split].
  - intros w1 w2 Hw1%list_elem_of_In Hw2%list_elem_of_In.
    apply in_flat_map in Hw2 as (k2 & Hk2 & Hw2). left.
    rewrite (g_chrom k w1 Hw1), (g_chrom k2 w2 Hw2).
    rewrite Forall_forall in Hk. apply list_elem_of_In in Hk2.
    apply le_ne_ltb; [by apply Hk | by intros ->].
  - apply (StronglySorted_weaken
             (fun a b => window_start a < window_start b)).
    + intros w1 w2 Hw1 Hw2 Hlt. right.
      by rewrite (g_chrom k w1 Hw1), (g_chrom k w2 Hw2).
    + apply Hg. by left.
  - apply IH; [done|]. intros k2 Hk2. apply Hg. by right.
Qed.
End OutputOrder.

Lemma StronglySorted_sorted (l : list string) :
  StronglySorted String.le (sorted l).
Proof. apply StronglySorted_merge_sort; apply _. Qed.

Lemma length_of_nonneg (d : dict) (k : string) :
  lengths_nonneg d -> 0 <= length_of d k.
Proof.
  unfold lengths_nonneg, length_of. intros Hd.
  induction d as [|[k' v] d IH]; simpl; [done|].
  apply Forall_cons in Hd as [Hv Hd].
  destruct (String.eqb k' k); [done | by apply IH].
Qed.

(** ** Independence of the insertion order of the length map *)

Lemma getitem_In_item (d : dict) (k : string) (v : Z) :
  dict_wf d -> In (k, v) d -> getitem d k = Ok v.
Proof.
  unfold dict_wf. induction d as [|[k' v'] d IH]; simpl; [done|].
  intros [Hk' Hnd]%NoDup_cons [Heq|Hin].
  - injection Heq as -> ->. by rewrite String.eqb_refl.
  - destruct (String.eqb_spec k' k) as [->|]; [|by apply IH].
    exfalso. apply Hk', list_elem_of_In, in_map_iff. by exists (k, v).
Qed.

Lemma getitem_Permutation (d d' : dict) (k : string) :
  dict_wf d -> dict_wf d' -> d' ≡ₚ d -> getitem d' k = getitem d k.
Proof.
  intros Hwf Hwf' Hperm.
  destruct (in_dec String.string_dec k (keys d)) as [Hin|Hn].
  - destruct (getitem_In d k Hin) as (v & -> & Hv).
    apply getitem_In_item; [done|].
    apply list_elem_of_In. rewrite Hperm. by apply list_elem_of_In.
  - rewrite (getitem_not_In d k Hn). apply getitem_not_In.
    intros Hin. apply Hn. unfold keys in *.
    apply list_elem_of_In. rewrite <- Hperm. by apply list_elem_of_In.
Qed.

Lemma sorted_keys_Permutation (d d' : dict) :
  d' ≡ₚ d -> sorted (keys d') = sorted (keys d).
Proof.
  intros Hperm. apply (StronglySorted_unique String.le).
  - apply StronglySorted_sorted.
  - apply StronglySorted_sorted.
  - rewrite !sorted_Permutation. unfold keys. by rewrite Hperm.
Qed.

(** [sorted l] is the only ascending arrangement of [l], so the
    choice of sorting algorithm in the model is immaterial. *)
Lemma sorted_unique (l l' : list string) :
  StronglySorted String.le l' -> l' ≡ₚ l -> l' = sorted l.
Proof.
  intros Hl' Hperm. apply (StronglySorted_unique String.le); [done| |].
  - apply StronglySorted_sorted.
  - by rewrite sorted_Permutation.
Qed.

Lemma for_in_ext {A S : Type} (xs : list A) (f g : S -> A -> result S) s :
  (forall s x, f s x = g s x) -> for_in xs f s = for_in xs g s.
Proof.
  intros Hfg. revert s. induction xs as [|x xs IH]; intros s; simpl; [done|].
  rewrite Hfg. destruct (g s x); simpl; [apply IH | done].
Qed.

Lemma count_features_in_windows_Permutation df (d d' : dict) W :
  dict_wf d -> dict_wf d' -> d' ≡ₚ d ->
  count_features_in_windows df d' W = count_features_in_windows df d W.
Proof.
  intros Hwf Hwf' Hperm. unfold count_features_in_windows.
  rewrite (sorted_keys_Permutation d d' Hperm). apply for_in_ext.
  intros results chrom. unfold chromosome_step.
  by rewrite (getitem_Permutation d d' chrom).
Qed.

(** C5. The output is strictly ascending in the order "chromosome name
    (lexicographic), then window start": every record precedes every
    later record. The claim that the function returns is made for every
    non-zero window size; the window size is positive, or else no length
    is negative. Two length maps with the same items in different
    insertion orders give the same result. *)
Theorem output_is_sorted df d W :
  dict_wf d -> (0 < W \/ lengths_nonneg d) ->
  (W <> 0 ->
   exists out, count_features_in_windows df d W = Ok out
               /\ StronglySorted record_lt out)
  /\ (forall d', dict_wf d' -> d' ≡ₚ d ->
        count_features_in_windows df d' W
        = count_features_in_windows df d W).
Proof.
  intros Hwf Hdom. split.
  - intros HW. eexists. split; [by apply count_features_in_windows_Ok|].
    apply flat_map_sorted.
    + intros k w. apply chromosome_windows_chrom.
    + apply StronglySorted_sorted.
    + by apply NoDup_sorted_keys.
    + intros k _. destruct (Z.lt_trichotomy W 0) as [Hneg|[?|Hpos]];
        [|done|by apply chromosome_windows_sorted].
      destruct Hdom as [?|Hnn]; [lia|].
      rewrite chromosome_windows_neg_size;
        [constructor | done | by apply length_of_nonneg].
  - intros d' Hwf' Hperm. by apply count_features_in_windows_Permutation.
Qed.

Lemma output_is_sorted_witness :
  (10000 <> 0 ->
   exists out,
     count_features_in_windows test_coords test_chr_lengths 10000 = Ok out
     /\ StronglySorted record_lt out)
  /\ (forall d', dict_wf d' -> d' ≡ₚ test_chr_lengths ->
        count_features_in_windows test_coords d' 10000
        = count_features_in_windows test_coords test_chr_lengths 10000).
Proof.
  apply (output_is_sorted test_coords test_chr_lengths 10000).
  - unfold dict_wf. compute_done.
  - left. lia.
Defined.

Example output_order_reversed_map :
  count_features_in_windows test_coords
    [("Chr7", 15000); ("Chr6", 20000)] 10000
  = count_features_in_windows test_coords test_chr_lengths 10000.
Proof. vm_compute. reflexivity. Qed.

(** ** What the result depends on in the coordinate table *)

Lemma for_in_ext_In {A S : Type} (xs : list A) (f g : S -> A -> result S) s :
  (forall s x, In x xs -> f s x = g s x) -> for_in xs f s = for_in xs g s.
Proof.
  revert s. induction xs as [|x xs IH]; intros s Hfg; simpl; [done|].
  rewrite Hfg by (by left).
  destruct (g s x); simpl; [|done]. apply IH. intros s' y Hy.
  apply Hfg. by right.
Qed.

(** Two tables giving the same counts on the windows emitted for a
    chromosome give the same window list. *)
Lemma chromosome_windows_ext df1 df2 chrom L W :
  (forall w, In w (chromosome_windows df1 chrom L W) ->
     count_starts (select_chromosome df1 chrom)
                  (window_start w) (window_end w)
     = count_starts (select_chromosome df2 chrom)
                    (window_start w) (window_end w)) ->
  chromosome_windows df1 chrom L W = chromosome_windows df2 chrom L W.
Proof.
  unfold chromosome_windows. intros Hcount. f_equal.
  - apply map_ext_in. intros i Hi. f_equal.
    apply (Hcount (mkWindowCount chrom (i * W) ((i + 1) * W)
             (count_starts (select_chromosome df1 chrom) (i * W)
                ((i + 1) * W)))).
    apply in_or_app. left. apply in_map_iff. by exists i.
  - destruct (L mod W >? 0); [|done]. do 2 f_equal.
    apply (Hcount (mkWindowCount chrom (L / W * W) L
             (count_starts (select_chromosome df1 chrom) (L / W * W) L))).
    apply in_or_app. right. by left.
Qed.

(** The whole result is determined by the per-chromosome window lists
    of the chromosomes of the map. *)
Lemma count_features_in_windows_ext df1 df2 d W :
  (W <> 0 -> forall chrom, In chrom (keys d) ->
     chromosome_windows df1 chrom (length_of d chrom) W
     = chromosome_windows df2 chrom (length_of d chrom) W) ->
  count_features_in_windows df1 d W = count_features_in_windows df2 d W.
Proof.
  intros Hcw. unfold count_features_in_windows. apply for_in_ext_In.
  intros results chrom Hin. apply (proj1 (In_sorted _ _)) in Hin.
  destruct (Z.eq_dec W 0) as [->|HW].
  - by rewrite (chromosome_step_zero df1), (chromosome_step_zero df2).
  - rewrite (chromosome_step_Ok df1), (chromosome_step_Ok df2) by done.
    by rewrite Hcw.
Qed.

Lemma count_starts_remove df1 df2 r chrom lo hi :
  starts_within chrom lo hi r = false ->
  count_starts (select_chromosome (df1 ++ r :: df2) chrom) lo hi
  = count_starts (select_chromosome (df1 ++ df2) chrom) lo hi.
Proof.
  intros Hr. rewrite !count_starts_select, !List.filter_app. simpl.
  by rewrite Hr.
Qed.

Lemma count_starts_same_key df1 df2 chrom lo hi :
  Forall2 same_key df1 df2 ->
  count_starts (select_chromosome df1 chrom) lo hi
  = count_starts (select_chromosome df2 chrom) lo hi.
Proof.
  intros Hsame. rewrite !count_starts_select.
  induction Hsame as [|r1 r2 df1 df2 [Hc Hs] _ IH]; simpl; [done|].
  unfold starts_within in *. rewrite Hc, Hs.
  destruct (_ && _); simpl; by rewrite IH.
Qed.

Lemma chromosome_windows_start_nonneg df chrom L W w :
  0 < W -> 0 <= L -> In w (chromosome_windows df chrom L W) ->
  0 <= window_start w.
Proof.
  intros HW HL. rewrite chromosome_windows_closed, in_map_iff by done.
  intros (i & <- & Hi%In_range). simpl. nia.
Qed.

(** C6. A row whose chromosome is not a key of the length map changes
    nothing: the result (records or exception) is the one obtained on
    the table without that row. When the function returns, no emitted
    record carries that chromosome and the row lies in no emitted
    window. *)
Theorem absent_chromosome_is_ignored df1 df2 r d W :
  ~ In (chromosome r) (keys d) ->
  count_features_in_windows (df1 ++ r :: df2) d W
  = count_features_in_windows (df1 ++ df2) d W
  /\ (W <> 0 ->
      exists out,
        count_features_in_windows (df1 ++ r :: df2) d W = Ok out
        /\ forall w, In w out ->
             w_chromosome w <> chromosome r /\ in_window w r = false).
Proof.
  intros Habsent. split.
  - apply count_features_in_windows_ext. intros _ chrom Hchrom.
    apply chromosome_windows_ext. intros w _.
    apply count_starts_remove. unfold starts_within.
    destruct (String.eqb_spec (chromosome r) chrom) as [Heq|]; [|done].
    congruence.
  - intros HW.
    pose proof (count_features_in_windows_Ok (df1 ++ r :: df2) d W HW)
      as Hout.
    eexists. split; [exact Hout|]. intros w Hw.
    destruct (In_output _ d W _ w HW Hout Hw) as [Hk _].
    assert (w_chromosome w <> chromosome r) as Hne by congruence.
    split; [done|]. unfold in_window.
    destruct (String.eqb_spec (chromosome r) (w_chromosome w)); [|done].
    congruence.
Qed.

Lemma absent_chromosome_is_ignored_witness :
  count_features_in_windows
    (test_coords ++ mkFeature "ChrX" 500 900 "ID8" "TYPE1" :: [])
    test_chr_lengths 10000
  = count_features_in_windows (test_coords ++ []) test_chr_lengths 10000
  /\ (10000 <> 0 ->
      exists out,
        count_features_in_windows
          (test_coords ++ mkFeature "ChrX" 500 900 "ID8" "TYPE1" :: [])
          test_chr_lengths 10000 = Ok out
        /\ forall w, In w out ->
             w_chromosome w <> "ChrX"
             /\ in_window w (mkFeature "ChrX" 500 900 "ID8" "TYPE1")
                = false).
Proof.
  apply (absent_chromosome_is_ignored test_coords []
           (mkFeature "ChrX" 500 900 "ID8" "TYPE1") test_chr_lengths 10000).
  simpl. intros [H|[H|[]]]; discriminate H.
Defined.

(** C8. Two tables that agree row by row on [chromosome] and [start]
    give the same result, whatever their [end], [id] and [type]
    columns hold. *)
Theorem only_chromosome_and_start_matter df1 df2 d W :
  Forall2 same_key df1 df2 ->
  count_features_in_windows df1 d W = count_features_in_windows df2 d W.
Proof.
  intros Hsame. apply count_features_in_windows_ext. intros _ chrom _.
  apply chromosome_windows_ext. intros w _.
  by apply count_starts_same_key.
Qed.

Lemma only_chromosome_and_start_matter_witness :
  count_features_in_windows
    [mkFeature "Chr6" 1000 2000 "ID1" "TYPE1";
     mkFeature "Chr7" 11000 12000 "ID7" "TYPE1"] test_chr_lengths 10000
  = count_features_in_windows
      [mkFeature "Chr6" 1000 5 "other" "TYPE2";
       mkFeature "Chr7" 11000 (-3) "" "gene"] test_chr_lengths 10000.
Proof.
  apply only_chromosome_and_start_matter.
  repeat constructor.
Defined.

(** C10. With no negative length in the map, a row with a negative
    start changes nothing: the result is the one obtained on the table
    without that row. When the function returns, every emitted window
    starts at a non-negative coordinate and the row lies in none. *)
Theorem negative_start_is_ignored df1 df2 r d W :
  lengths_nonneg d -> start r < 0 ->
  count_features_in_windows (df1 ++ r :: df2) d W
  = count_features_in_windows (df1 ++ df2) d W
  /\ (W <> 0 ->
      exists out,
        count_features_in_windows (df1 ++ r :: df2) d W = Ok out
        /\ forall w, In w out ->
             0 <= window_start w /\ in_window w r = false).
Proof.
  intros Hnn Hneg.
  assert (forall df chrom w, W <> 0 ->
            In w (chromosome_windows df chrom (length_of d chrom) W) ->
            0 <= window_start w) as Hstart.
  { intros df chrom w HW Hw.
    pose proof (length_of_nonneg d chrom Hnn) as HL.
    destruct (Z.lt_trichotomy W 0) as [HWneg|[?|HWpos]]; [|done|].
    - by rewrite chromosome_windows_neg_size in Hw.
    - by eapply chromosome_windows_start_nonneg. }
  assert (forall w, 0 <= window_start w ->
            starts_within (w_chromosome w) (window_start w) (window_end w) r
            = false) as Hout_r.
  { intros w Hw. unfold starts_within.
    destruct (Z.leb_spec (window_start w) (start r)); [lia|].
    by rewrite andb_false_r. }
  split.
  - apply count_features_in_windows_ext. intros HW chrom Hchrom.
    apply chromosome_windows_ext. intros w Hw.
    apply count_starts_remove.
    rewrite <- (chromosome_windows_chrom _ _ _ _ _ Hw).
    apply Hout_r. by eapply Hstart.
  - intros HW.
    pose proof (count_features_in_windows_Ok (df1 ++ r :: df2) d W HW)
      as Hout.
    eexists. split; [exact Hout|]. intros w Hw.
    destruct (In_output _ d W _ w HW Hout Hw) as [_ Hcw].
    pose proof (Hstart _ _ _ HW Hcw) as Hw0.
    split; [done|]. by apply Hout_r.
Qed.

Lemma negative_start_is_ignored_witness :
  count_features_in_windows
    (test_coords ++ mkFeature "Chr6" (-500) 900 "ID8" "TYPE1" :: [])
    test_chr_lengths 10000
  = count_features_in_windows (test_coords ++ []) test_chr_lengths 10000
  /\ (10000 <> 0 ->
      exists out,
        count_features_in_windows
          (test_coords ++ mkFeature "Chr6" (-500) 900 "ID8" "TYPE1" :: [])
          test_chr_lengths 10000 = Ok out
        /\ forall w, In w out ->
             0 <= window_start w
             /\ in_window w (mkFeature "Chr6" (-500) 900 "ID8" "TYPE1")
                = false).
Proof.
  apply (negative_start_is_ignored test_coords []
           (mkFeature "Chr6" (-500) 900 "ID8" "TYPE1") test_chr_lengths
           10000).
  - unfold lengths_nonneg. repeat constructor; simpl; lia.
  - simpl. lia.
Defined.

(** ** Determinism *)

Lemma In_keys_getitem (d : dict) (k : string) :
  In k (keys d) <-> exists v, getitem d k = Ok v.
Proof.
  split.
  - intros Hin. destruct (getitem_In d k Hin) as (v & Hv & _). eauto.
  - intros [v Hv]. by destruct (getitem_In_wf d k v Hv).
Qed.

(** Equal dictionaries have the same keys, up to their order. *)
Lemma dict_eq_keys (d1 d2 : dict) :
  dict_wf d1 -> dict_wf d2 -> dict_eq d1 d2 -> keys d1 ≡ₚ keys d2.
Proof.
  intros Hwf1 Hwf2 Heq. apply NoDup_Permutation; [done..|].
  intros k. rewrite !list_elem_of_In, !In_keys_getitem.
  by setoid_rewrite (Heq k).
Qed.

(** The loop visits the keys of equal dictionaries in the same order:
    this is what [sorted] is there for. *)
Lemma dict_eq_sorted_keys (d1 d2 : dict) :
  dict_wf d1 -> dict_wf d2 -> dict_eq d1 d2 ->
  sorted (keys d1) = sorted (keys d2).
Proof.
  intros Hwf1 Hwf2 Heq. apply (StronglySorted_unique String.le).
  - apply StronglySorted_sorted.
  - apply StronglySorted_sorted.
  - rewrite !sorted_Permutation. by apply dict_eq_keys.
Qed.

(** The loop from an arbitrary list of earlier records: the records of
    this call are appended to it. The function starts from the empty
    list, so nothing of an earlier call can show in its result. *)
Lemma for_in_chromosome_step_from df d W (results : list WindowCount) :
  W <> 0 ->
  for_in (sorted (keys d)) (chromosome_step df d W) results
  = (out ← count_features_in_windows df d W; Ok (results ++ out)).
Proof.
  intros HW. rewrite count_features_in_windows_Ok by done.
  rewrite for_in_chromosome_step; [done | done |].
  intros k. by rewrite In_sorted.
Qed.

(** C9. Two invocations on identical inputs give identical results,
    records and their order included (or the same exception). The
    tables are identical row by row, the window sizes are the same
    integer, and the length maps are identical as Python dictionaries:
    they hold the same keys with the same values, in whatever order the
    keys were inserted. The only order the function takes from a
    dictionary passes through [sorted], and its accumulator starts
    empty on every call. *)
Theorem count_features_in_windows_deterministic df1 df2 d1 d2 W1 W2 :
  dict_wf d1 -> dict_wf d2 ->
  df1 = df2 -> dict_eq d1 d2 -> W1 = W2 ->
  count_features_in_windows df1 d1 W1 = count_features_in_windows df2 d2 W2.
Proof.
  intros Hwf1 Hwf2 -> Heq ->. unfold count_features_in_windows.
  rewrite (dict_eq_sorted_keys d1 d2) by done. apply for_in_ext.
  intros results chrom. unfold chromosome_step. by rewrite (Heq chrom).
Qed.

Lemma count_features_in_windows_deterministic_witness :
  count_features_in_windows test_coords test_chr_lengths 10000
  = count_features_in_windows test_coords
      [("Chr7", 15000); ("Chr6", 20000)] (100 * 100).
Proof.
  apply count_features_in_windows_deterministic.
  - unfold dict_wf. compute_done.
  - unfold dict_wf. compute_done.
  - reflexivity.
  - intros k. unfold test_chr_lengths. cbn [getitem].
    destruct (String.eqb_spec "Chr6" k) as [<-|]; [done|].
    by destruct (String.eqb_spec "Chr7" k) as [<-|].
  - reflexivity.
Defined.

(** Without [sorted] the insertion order would show: the loop over the
    keys as inserted gives the chromosomes of the reversed map in the
    reverse order. *)
Example insertion_order_would_show :
  for_in (keys [("Chr7", 15000); ("Chr6", 20000)])
         (chromosome_step [] [("Chr7", 15000); ("Chr6", 20000)] 10000) []
  <> for_in (keys test_chr_lengths)
            (chromosome_step [] test_chr_lengths 10000) [].
Proof. vm_compute. discriminate. Qed.

(** ** Window sizes that are not positive *)

Lemma flat_map_nil {A B : Type} (f : A -> list B) (l : list A) :
  (forall x, In x l -> f x = []) -> flat_map f l = [].
Proof.
  induction l as [|x l IH]; simpl; [done|]. intros Hf.
  rewrite (Hf x), IH by auto. done.
Qed.

Lemma count_features_in_windows_zero df d :
  d <> [] -> count_features_in_windows df d 0 = Raise ZeroDivisionError.
Proof.
  intros Hd. unfold count_features_in_windows.
  destruct (sorted (keys d)) as [|k ks] eqn:Hks.
  - pose proof (sorted_Permutation (keys d)) as Hperm.
    rewrite Hks in Hperm.
    apply Permutation_nil in Hperm. by destruct d.
  - simpl. rewrite chromosome_step_zero; [done|].
    apply In_sorted. rewrite Hks. by left.
Qed.

(** The claim C7 fails: a negative window size is not rejected, the
    function returns an empty table. *)
Lemma negative_window_size_returns :
  -10000 <= 0
  /\ count_features_in_windows test_coords test_chr_lengths (-10000) = Ok []
  /\ ~ exists e,
         count_features_in_windows test_coords test_chr_lengths (-10000)
         = Raise e.
Proof.
  split; [lia|]. split; [vm_compute; reflexivity|].
  intros [e He]. vm_compute in He. discriminate He.
Qed.

(** C7, as amended. There is no validation of the window size. With a
    window size of zero the first pass of the chromosome loop raises
    [ZeroDivisionError]; over an empty length map the loop body is never
    entered and the empty result is returned. With a negative window
    size nothing is raised: the function returns, and the result is
    empty when no length is negative. *)
Theorem nonpositive_window_size df d W :
  W <= 0 ->
  (W = 0 -> d <> [] ->
   count_features_in_windows df d W = Raise ZeroDivisionError)
  /\ (W = 0 -> d = [] -> count_features_in_windows df d W = Ok [])
  /\ (W < 0 ->
      exists out, count_features_in_windows df d W = Ok out
                  /\ (lengths_nonneg d -> out = [])).
Proof.
  intros HW. split; [|split].
  - intros -> Hd. by apply count_features_in_windows_zero.
  - by intros -> ->.
  - intros Hneg. eexists.
    split; [apply count_features_in_windows_Ok; lia|].
    intros Hnn. apply flat_map_nil. intros k _.
    apply chromosome_windows_neg_size; [done|].
    by apply length_of_nonneg.
Qed.

Lemma nonpositive_window_size_witness :
  (0 = 0 -> test_chr_lengths <> [] ->
   count_features_in_windows test_coords test_chr_lengths 0
   = Raise ZeroDivisionError)
  /\ (0 = 0 -> test_chr_lengths = [] ->
      count_features_in_windows test_coords test_chr_lengths 0 = Ok [])
  /\ (0 < 0 ->
      exists out,
        count_features_in_windows test_coords test_chr_lengths 0 = Ok out
        /\ (lengths_nonneg test_chr_lengths -> out = [])).
Proof.
  apply (nonpositive_window_size test_coords test_chr_lengths 0). lia.
Defined.

(** ** Inputs outside the data model *)

(** A negative length with a positive window size yields one window
    lying below zero, which counts rows with negative starts. *)
Example negative_length_window :
  count_features_in_windows
    [mkFeature "Chr1" (-7) 0 "ID1" "TYPE1"] [("Chr1", -5)] 10
  = Ok [mkWindowCount "Chr1" (-10) (-5) 1].
Proof. vm_compute. reflexivity. Qed.

(** A negative length with a negative window size yields windows whose
    starts descend. *)
Example negative_length_negative_size :
  count_features_in_windows [] [("Chr1", -25)] (-10)
  = Ok [mkWindowCount "Chr1" 0 (-10) 0; mkWindowCount "Chr1" (-10) (-20) 0].
Proof. vm_compute. reflexivity. Qed.

(** * Further properties of [count_features_in_windows] *)

(** X1. The only exception the function can raise is
    [ZeroDivisionError], and it raises it exactly when the window size
    is zero and the length map is not empty. In particular the lookup
    [chr_lengths[chrom]] never raises [KeyError]. *)
Theorem raises_iff_zero_size df d W e :
  count_features_in_windows df d W = Raise e
  <-> e = ZeroDivisionError /\ W = 0 /\ d <> [].
Proof.
  split.
  - intros Hraise. destruct (Z.eq_dec W 0) as [->|HW].
    + destruct d as [|kv d]; [done|].
      rewrite count_features_in_windows_zero in Hraise by done.
      by injection Hraise as <-.
    + by rewrite count_features_in_windows_Ok in Hraise.
  - intros (-> & -> & Hd). by apply count_features_in_windows_zero.
Qed.

Lemma length_filter_Permutation {A : Type} (f : A -> bool) (l1 l2 : list A) :
  l1 ≡ₚ l2 -> length (List.filter f l1) = length (List.filter f l2).
Proof.
  induction 1 as [|x l1 l2 _ IH|x y l|l1 l2 l3 _ IH1 _ IH2]; simpl.
  - done.
  - destruct (f x); simpl; by rewrite IH.
  - by destruct (f x), (f y).
  - by rewrite IH1.
Qed.

(** X2. The order of the rows of the coordinate table is immaterial:
    two tables with the same rows in a different order give the same
    result. *)
Theorem row_order_is_immaterial df1 df2 d W :
  df1 ≡ₚ df2 ->
  count_features_in_windows df1 d W = count_features_in_windows df2 d W.
Proof.
  intros Hperm. apply count_features_in_windows_ext. intros _ chrom _.
  apply chromosome_windows_ext. intros w _.
  rewrite !count_starts_select. by apply length_filter_Permutation.
Qed.

Lemma row_order_is_immaterial_witness :
  count_features_in_windows
    [mkFeature "Chr6" 1000 2000 "ID1" "TYPE1";
     mkFeature "Chr7" 11000 12000 "ID7" "TYPE1"] test_chr_lengths 10000
  = count_features_in_windows
      [mkFeature "Chr7" 11000 12000 "ID7" "TYPE1";
       mkFeature "Chr6" 1000 2000 "ID1" "TYPE1"] test_chr_lengths 10000.
Proof.
  apply row_order_is_immaterial. apply perm_swap.
Defined.

Lemma chromosome_windows_width df chrom L W w :
  0 < W -> In w (chromosome_windows df chrom L W) ->
  window_end w - window_start w <= W.
Proof.
  intros HW. unfold chromosome_windows. rewrite in_app_iff, in_map_iff.
  pose proof (Z.div_mod L W ltac:(lia)) as Hdm.
  pose proof (Z.mod_pos_bound L W HW) as Hm.
  intros [(i & <- & _)|Hw]; simpl; [lia|].
  destruct (L mod W >? 0); [|done]. destruct Hw as [<-|[]]. simpl. lia.
Qed.

Lemma count_starts_le (data : DataFrame) (lo hi : Z) :
  (count_starts data lo hi <= length data)%nat.
Proof. unfold count_starts. apply filter_length_le. Qed.

Lemma length_select_chromosome_le (df : DataFrame) (chrom : string) :
  (length (select_chromosome df chrom) <= length df)%nat.
Proof. unfold select_chromosome. apply filter_length_le. Qed.

(** X5. With a positive window size the function returns, and every
    emitted record is a non-empty window no wider than the window size
    that ends at or before the length stored for its own chromosome;
    its count does not exceed the number of rows of the table. *)
Theorem windows_stay_within_chromosome df d W :
  0 < W ->
  exists out,
    count_features_in_windows df d W = Ok out
    /\ forall w, In w out ->
         (exists L, getitem d (w_chromosome w) = Ok L /\ window_end w <= L)
         /\ 0 < window_end w - window_start w <= W
         /\ (feature_count w <= length df)%nat.
Proof.
  intros HW.
  pose proof (count_features_in_windows_Ok df d W ltac:(lia)) as Hout.
  eexists. split; [exact Hout|]. intros w Hw.
  destruct (In_output df d W _ w ltac:(lia) Hout Hw) as [Hk Hcw].
  split; [|split].
  - exists (length_of d (w_chromosome w)).
    split; [by apply getitem_length_of|].
    by eapply chromosome_windows_end_le.
  - pose proof (chromosome_windows_nonempty _ _ _ _ _ HW Hcw).
    pose proof (chromosome_windows_width _ _ _ _ _ HW Hcw). lia.
  - rewrite (chromosome_windows_count _ _ _ _ _ Hcw).
    etrans; [apply count_starts_le | apply length_select_chromosome_le].
Qed.

Lemma windows_stay_within_chromosome_witness :
  exists out,
    count_features_in_windows test_coords test_chr_lengths 10000 = Ok out
    /\ forall w, In w out ->
         (exists L, getitem test_chr_lengths (w_chromosome w) = Ok L
                    /\ window_end w <= L)
         /\ 0 < window_end w - window_start w <= 10000
         /\ (feature_count w <= length test_coords)%nat.
Proof.
  apply (windows_stay_within_chromosome test_coords test_chr_lengths 10000).
  lia.
Defined.

Lemma layout_chromosome_windows df1 df2 chrom L W :
  layout (chromosome_windows df1 chrom L W)
  = layout (chromosome_windows df2 chrom L W).
Proof.
  unfold layout, chromosome_windows. rewrite !map_app, !map_map. f_equal.
  by destruct (L mod W >? 0).
Qed.

Lemma layout_flat_map (g : string -> list WindowCount) (ks : list string) :
  layout (flat_map g ks) = flat_map (fun k => layout (g k)) ks.
Proof.
  unfold layout. induction ks as [|k ks IH]; simpl; [done|].
  by rewrite map_app, IH.
Qed.

Lemma flat_map_ext_all {A B : Type} (f g : A -> list B) (l : list A) :
  (forall x, f x = g x) -> flat_map f l = flat_map g l.
Proof.
  intros Hfg. induction l as [|x l IH]; simpl; [done|]. by rewrite Hfg, IH.
Qed.

(** X3. The coordinate table has no influence on which windows are
    emitted: for a non-zero window size the output has the same
    chromosomes and window boundaries, in the same order, as the output
    on the empty table, where every count is zero. *)
Theorem table_does_not_move_windows df d W :
  W <> 0 ->
  exists out out0,
    count_features_in_windows df d W = Ok out
    /\ count_features_in_windows [] d W = Ok out0
    /\ layout out = layout out0
    /\ forall w, In w out0 -> feature_count w = 0%nat.
Proof.
  intros HW.
  pose proof (count_features_in_windows_Ok [] d W HW) as Hout0.
  eexists _, _. split; [by apply count_features_in_windows_Ok|].
  split; [exact Hout0|]. split.
  - rewrite !layout_flat_map. apply flat_map_ext_all. intros k.
    apply layout_chromosome_windows.
  - intros w Hw.
    destruct (In_output [] d W _ w HW Hout0 Hw) as [_ Hcw].
    by rewrite (chromosome_windows_count _ _ _ _ _ Hcw).
Qed.

Lemma table_does_not_move_windows_witness :
  exists out out0,
    count_features_in_windows test_coords test_chr_lengths 10000 = Ok out
    /\ count_features_in_windows [] test_chr_lengths 10000 = Ok out0
    /\ layout out = layout out0
    /\ forall w, In w out0 -> feature_count w = 0%nat.
Proof.
  apply (table_does_not_move_windows test_coords test_chr_lengths 10000).
  lia.
Defined.

Lemma count_starts_app (df1 df2 : DataFrame) (chrom : string) (lo hi : Z) :
  count_starts (select_chromosome (df1 ++ df2) chrom) lo hi
  = (count_starts (select_chromosome df1 chrom) lo hi
     + count_starts (select_chromosome df2 chrom) lo hi)%nat.
Proof.
  by rewrite !count_starts_select, List.filter_app, length_app.
Qed.

Lemma zip_with_map_same {A B C D : Type} (f : B -> C -> D)
    (g : A -> B) (h : A -> C) (l : list A) :
  zip_with f (map g l) (map h l) = map (fun x => f (g x) (h x)) l.
Proof. induction l as [|x l IH]; simpl; [done|]. by rewrite IH. Qed.

Lemma chromosome_windows_app df1 df2 chrom L W :
  chromosome_windows (df1 ++ df2) chrom L W
  = zip_with add_counts (chromosome_windows df1 chrom L W)
                        (chromosome_windows df2 chrom L W).
Proof.
  unfold chromosome_windows.
  rewrite zip_with_app by (by rewrite !length_map).
  rewrite zip_with_map_same. f_equal.
  - apply map_ext. intros i. unfold add_counts. simpl.
    by rewrite count_starts_app.
  - destruct (L mod W >? 0); [|done]. simpl. unfold add_counts. simpl.
    by rewrite count_starts_app.
Qed.

Lemma zip_with_flat_map {A B : Type} (f : B -> B -> B)
    (g1 g2 : A -> list B) (l : list A) :
  (forall x, length (g1 x) = length (g2 x)) ->
  zip_with f (flat_map g1 l) (flat_map g2 l)
  = flat_map (fun x => zip_with f (g1 x) (g2 x)) l.
Proof.
  intros Hlen. induction l as [|x l IH]; simpl; [done|].
  by rewrite zip_with_app, IH.
Qed.

Lemma length_chromosome_windows_any df1 df2 chrom L W :
  length (chromosome_windows df1 chrom L W)
  = length (chromosome_windows df2 chrom L W).
Proof.
  pose proof (layout_chromosome_windows df1 df2 chrom L W) as Hlay.
  apply (f_equal length) in Hlay. unfold layout in Hlay.
  by rewrite !length_map in Hlay.
Qed.

(** X4. Counting distributes over the concatenation of two tables: for
    a non-zero window size the output on [df1 ++ df2] is the output on
    [df1] with, record by record, the count of the output on [df2]
    added. *)
Theorem counts_add_over_tables df1 df2 d W :
  W <> 0 ->
  exists out1 out2,
    count_features_in_windows df1 d W = Ok out1
    /\ count_features_in_windows df2 d W = Ok out2
    /\ count_features_in_windows (df1 ++ df2) d W
       = Ok (zip_with add_counts out1 out2).
Proof.
  intros HW. eexists _, _.
  split; [by apply count_features_in_windows_Ok|].
  split; [by apply count_features_in_windows_Ok|].
  rewrite count_features_in_windows_Ok by done. f_equal.
  rewrite zip_with_flat_map by (intros; apply length_chromosome_windows_any).
  apply flat_map_ext_all. intros k. apply chromosome_windows_app.
Qed.

Lemma counts_add_over_tables_witness :
  exists out1 out2,
    count_features_in_windows test_coords test_chr_lengths 10000 = Ok out1
    /\ count_features_in_windows
         [mkFeature "Chr7" 12000 12500 "ID8" "TYPE1"] test_chr_lengths 10000
       = Ok out2
    /\ count_features_in_windows
         (test_coords ++ [mkFeature "Chr7" 12000 12500 "ID8" "TYPE1"])
         test_chr_lengths 10000
       = Ok (zip_with add_counts out1 out2).
Proof.
  apply (counts_add_over_tables test_coords
           [mkFeature "Chr7" 12000 12500 "ID8" "TYPE1"]
           test_chr_lengths 10000).
  lia.
Defined.

(** ** The counts of the whole output *)

Lemma total_count_flat_map (g : string -> list WindowCount) ks :
  total_count (flat_map g ks) = list_sum (map (fun k => total_count (g k)) ks).
Proof.
  induction ks as [|k ks IH]; simpl; [done|].
  by rewrite total_count_app, IH.
Qed.

Lemma total_count_chromosome_windows_any df chrom L W :
  0 < W -> (0 <= L \/ Forall (fun r => 0 <= start r) df) ->
  total_count (chromosome_windows df chrom L W)
  = length (List.filter (starts_within chrom 0 L) df).
Proof.
  intros HW Hdom. destruct (Z.le_gt_cases 0 L) as [HL|HL].
  { by apply total_count_chromosome_windows. }
  destruct Hdom as [?|Hstarts]; [lia|].
  rewrite Forall_forall in Hstarts.
  rewrite total_count_zero, filter_none; [done | |].
  - intros r _. unfold starts_within.
    destruct (Z.leb_spec 0 (start r)), (Z.ltb_spec (start r) L);
      try apply andb_false_r; lia.
  - intros w Hw. rewrite (chromosome_windows_count _ _ _ _ _ Hw).
    apply count_starts_none. intros r [Hr _]%filter_In.
    pose proof (Hstarts r ltac:(by apply list_elem_of_In)).
    pose proof (chromosome_windows_end_le _ _ _ _ _ HW Hw). lia.
Qed.

Lemma list_sum_map_add {A : Type} (f g : A -> nat) (l : list A) :
  list_sum (map (fun x => f x + g x)%nat l)
  = (list_sum (map f l) + list_sum (map g l))%nat.
Proof. induction l as [|x l IH]; simpl; [done|]. rewrite IH. lia. Qed.

Section Indicator.
Variables (P : string -> bool) (c : string).

Lemma list_sum_indicator_absent (ks : list string) :
  ~ In c ks ->
  list_sum (map (fun k => Nat.b2n (String.eqb c k && P k)) ks) = 0%nat.
Proof.
  induction ks as [|k ks IH]; simpl; [done|]. intros Hc.
  destruct (String.eqb_spec c k) as [->|_]; [tauto|].
  simpl. apply IH. tauto.
Qed.

Lemma list_sum_indicator_present (ks : list string) :
  NoDup ks -> In c ks ->
  list_sum (map (fun k => Nat.b2n (String.eqb c k && P k)) ks)
  = Nat.b2n (P c).
Proof.
  induction 1 as [|k ks Hk Hnd IH]; simpl; [done|].
  rewrite list_elem_of_In in Hk. intros [->|Hc].
  - rewrite String.eqb_refl, list_sum_indicator_absent by done.
    simpl. lia.
  - destruct (String.eqb_spec c k) as [->|_]; [done|]. simpl. by apply IH.
Qed.
End Indicator.

Lemma rows_in_range_by_chromosome (d : dict) (ks : list string) df :
  NoDup ks -> (forall k, In k ks <-> In k (keys d)) ->
  list_sum (map (fun k => length (List.filter
                             (starts_within k 0 (length_of d k)) df)) ks)
  = length (List.filter (in_range d) df).
Proof.
  intros Hnd Hks. induction df as [|r df IH]; simpl.
  - clear Hnd Hks. by induction ks.
  - rewrite <- (map_ext
      (fun k => Nat.add
         (Nat.b2n (String.eqb (chromosome r) k
                   && ((0 <=? start r) && (start r <? length_of d k))))
         (length (List.filter (starts_within k 0 (length_of d k)) df)))).
    2:{ intros k. unfold starts_within at 2. rewrite andb_assoc.
        by destruct (_ && _). }
    rewrite list_sum_map_add, IH. unfold in_range at 2.
    destruct (in_dec String.string_dec (chromosome r) (keys d)) as [Hin|Hn].
    + rewrite (list_sum_indicator_present
                 (fun k => (0 <=? start r) && (start r <? length_of d k)))
        by (by try apply Hks).
      rewrite (getitem_length_of d _ Hin). by destruct (_ && _).
    + rewrite list_sum_indicator_absent by (by rewrite Hks).
      by rewrite (getitem_not_In d _ Hn).
Qed.

(** X6. With a positive window size the function returns, and the
    counts of the whole output add up to the number of rows of the
    table that are on a chromosome of the length map and start inside
    it ([0 <= start < length]); no row is counted twice, and rows on
    other chromosomes or starting outside are not counted. No length
    is negative, or else no start is. *)
Theorem total_count_is_rows_in_range df d W :
  dict_wf d -> 0 < W ->
  (lengths_nonneg d \/ Forall (fun r => 0 <= start r) df) ->
  exists out,
    count_features_in_windows df d W = Ok out
    /\ total_count out = length (List.filter (in_range d) df).
Proof.
  intros Hwf HW Hdom. eexists.
  split; [apply count_features_in_windows_Ok; lia|].
  rewrite total_count_flat_map.
  rewrite <- (rows_in_range_by_chromosome d (sorted (keys d)) df).
  - f_equal. apply map_ext. intros k.
    apply total_count_chromosome_windows_any; [done|].
    destruct Hdom as [Hnn|Hstarts]; [left|by right].
    by apply length_of_nonneg.
  - by apply NoDup_sorted_keys.
  - intros k. apply In_sorted.
Qed.

Lemma total_count_is_rows_in_range_witness :
  exists out,
    count_features_in_windows test_coords test_chr_lengths 10000 = Ok out
    /\ total_count out = length (List.filter (in_range test_chr_lengths)
                                   test_coords).
Proof.
  apply (total_count_is_rows_in_range test_coords test_chr_lengths 10000).
  - unfold dict_wf. compute_done.
  - lia.
  - left. unfold lengths_nonneg. repeat constructor; simpl; lia.
Defined.

(** * [parse_chr_lengths] *)

Example parse_chr_lengths_sample :
  parse_chr_lengths id blank_split decimal_int
    ["Chr7	15000"; "Chr6	20000"; "Chr7	16000"]
  = Returns [("Chr7", 16000); ("Chr6", 20000)].
Proof. vm_compute. reflexivity. Qed.

(** ** Dictionary assignment *)

Lemma getitem_setitem_eq (d : dict) (k : string) (v : Z) :
  getitem (setitem d k v) k = Ok v.
Proof.
  induction d as [|[k' v'] d IH]; simpl.
  - by rewrite String.eqb_refl.
  - destruct (String.eqb k' k) eqn:Hk; simpl; by rewrite Hk.
Qed.

Lemma getitem_setitem_ne (d : dict) (k k' : string) (v : Z) :
  k' <> k -> getitem (setitem d k v) k' = getitem d k'.
Proof.
  intros Hne. induction d as [|[k0 v0] d IH]; simpl.
  - destruct (String.eqb_spec k k'); [congruence | done].
  - destruct (String.eqb_spec k0 k) as [->|]; simpl.
    + destruct (String.eqb_spec k k'); [congruence | done].
    + destruct (String.eqb k0 k'); [done | apply IH].
Qed.

Lemma keys_setitem (d : dict) (k : string) (v : Z) :
  keys (setitem d k v)
  = if bool_decide (k ∈ keys d) then keys d else keys d ++ [k].
Proof.
  induction d as [|[k' v'] d IH]; simpl; [done|].
  destruct (String.eqb_spec k' k) as [->|Hne]; simpl.
  - rewrite bool_decide_eq_true_2; [done | by left].
  - rewrite IH. destruct (bool_decide_reflect (k ∈ keys d)) as [Hin|Hn].
    + rewrite bool_decide_eq_true_2; [done | by right].
    + rewrite bool_decide_eq_false_2; [done|].
      by intros [?|?]%elem_of_cons.
Qed.

Lemma In_keys_setitem (d : dict) (k k' : string) (v : Z) :
  In k' (keys (setitem d k v)) <-> k' = k \/ In k' (keys d).
Proof.
  rewrite keys_setitem.
  destruct (bool_decide_reflect (k ∈ keys d)) as [Hin|Hn].
  - apply list_elem_of_In in Hin. split; [tauto | by intros [->|?]].
  - rewrite in_app_iff. simpl. intuition.
Qed.

Lemma dict_wf_setitem (d : dict) (k : string) (v : Z) :
  dict_wf d -> dict_wf (setitem d k v).
Proof.
  unfold dict_wf. intros Hwf. rewrite keys_setitem.
  destruct (bool_decide_reflect (k ∈ keys d)) as [Hin|Hn]; [done|].
  apply NoDup_app. split; [done|]. split.
  - by intros k' Hk' ->%list_elem_of_singleton.
  - apply NoDup_singleton.
Qed.

(** X7. The assignment [chr_lengths[chrom] = v] keeps the keys
    distinct; afterwards [chrom] maps to [v], every other key maps to
    what it did, and the keys are the old ones in their old order, with
    [chrom] appended when it was not yet a key. *)
Theorem setitem_getitem (d : dict) (k : string) (v : Z) :
  dict_wf d ->
  dict_wf (setitem d k v)
  /\ getitem (setitem d k v) k = Ok v
  /\ (forall k', k' <> k -> getitem (setitem d k v) k' = getitem d k')
  /\ keys (setitem d k v)
     = if bool_decide (k ∈ keys d) then keys d else keys d ++ [k].
Proof.
  intros Hwf. split; [by apply dict_wf_setitem|].
  split; [apply getitem_setitem_eq|]. split; [|apply keys_setitem].
  intros k' Hne. by apply getitem_setitem_ne.
Qed.

Lemma setitem_getitem_witness :
  dict_wf (setitem test_chr_lengths "Chr6" 21000)
  /\ getitem (setitem test_chr_lengths "Chr6" 21000) "Chr6" = Ok 21000
  /\ (forall k', k' <> "Chr6" ->
        getitem (setitem test_chr_lengths "Chr6" 21000) k'
        = getitem test_chr_lengths k')
  /\ keys (setitem test_chr_lengths "Chr6" 21000)
     = if bool_decide ("Chr6" ∈ keys test_chr_lengths)
       then keys test_chr_lengths else keys test_chr_lengths ++ ["Chr6"].
Proof.
  apply (setitem_getitem test_chr_lengths "Chr6" 21000).
  unfold dict_wf. compute_done.
Defined.

(** ** Reading the length file *)

Lemma for_each_app {E A S : Type} (xs ys : list A)
    (body : S -> A -> outcome E S) (s : S) :
  for_each (xs ++ ys) body s
  = match for_each xs body s with
    | Returns s' => for_each ys body s'
    | Raises e => Raises e
    end.
Proof.
  revert s. induction xs as [|x xs IH]; intros s; simpl; [done|].
  destruct (body s x); [apply IH | done].
Qed.

Section ParseChrLengthsFacts.
Variable strip : string -> string.
Variable split : string -> list string.
Variable int : string -> option Z.

Abbreviation parse_line := (parse_line strip split int).
Abbreviation assigns := (assigns strip split int).

Lemma parse_line_Returns (d d' : dict) (line : string) :
  parse_line d line = Returns d' <->
  exists k v, assigns line k v /\ d' = setitem d k v.
Proof.
  unfold parse_line, assigns. split.
  - destruct (split (strip line)) as [|k [|s [|]]]; try done.
    destruct (int s) as [v|] eqn:Hv; [|done]. intros [= <-].
    exists k, v. split; [by exists s | done].
  - intros (k & v & (s & -> & ->) & ->). done.
Qed.

Lemma parse_line_Raises (d : dict) (line : string) (e : parse_exn) :
  parse_line d line = Raises e <-> ~ exists k v, assigns line k v.
Proof.
  unfold parse_line, assigns. split.
  - intros Hraise (k & v & s & Hs & Hv). by rewrite Hs, Hv in Hraise.
  - intros Hnone. destruct e.
    destruct (split (strip line)) as [|k [|s [|]]]; try done.
    destruct (int s) as [v|] eqn:Hv; [|done].
    destruct Hnone. exists k, v. by exists s.
Qed.

Lemma assigns_functional (line : string) k1 v1 k2 v2 :
  assigns line k1 v1 -> assigns line k2 v2 -> k1 = k2 /\ v1 = v2.
Proof.
  intros (s1 & Hs1 & Hv1) (s2 & Hs2 & Hv2). rewrite Hs1 in Hs2.
  injection Hs2 as -> ->. rewrite Hv1 in Hv2. by injection Hv2 as ->.
Qed.

Lemma for_each_parse_wf (lines : list string) (d0 d : dict) :
  for_each lines parse_line d0 = Returns d -> dict_wf d0 -> dict_wf d.
Proof.
  revert d0. induction lines as [|line lines IH]; intros d0; simpl.
  - by intros [= <-].
  - destruct (parse_line d0 line) as [d1|] eqn:Hline; [|done].
    apply parse_line_Returns in Hline as (k & v & _ & ->).
    intros Hrest Hwf. apply (IH _ Hrest). by apply dict_wf_setitem.
Qed.

Lemma for_each_parse_keys (lines : list string) (d0 d : dict) (k : string) :
  for_each lines parse_line d0 = Returns d ->
  In k (keys d) <->
  In k (keys d0) \/ exists line v, In line lines /\ assigns line k v.
Proof.
  revert d0. induction lines as [|line lines IH]; intros d0; simpl.
  - intros [= <-]. split; [tauto|]. by intros [?|(? & ? & [] & _)].
  - destruct (parse_line d0 line) as [d1|] eqn:Hline; [|done].
    apply parse_line_Returns in Hline as (k1 & v1 & Hk1 & ->).
    intros Hrest. rewrite (IH _ Hrest), In_keys_setitem. split.
    + intros [[->|?]|(line' & v & ? & ?)]; eauto 7.
    + intros [?|(line' & v & [<-|?] & Hk)]; eauto 7.
      destruct (assigns_functional _ _ _ _ _ Hk Hk1) as [-> _]. auto.
Qed.

Lemma for_each_parse_untouched (lines : list string) (d0 d : dict) k :
  for_each lines parse_line d0 = Returns d ->
  (forall line v, In line lines -> ~ assigns line k v) ->
  getitem d k = getitem d0 k.
Proof.
  revert d0. induction lines as [|line lines IH]; intros d0; simpl.
  - by intros [= <-].
  - destruct (parse_line d0 line) as [d1|] eqn:Hline; [|done].
    apply parse_line_Returns in Hline as (k1 & v1 & Hk1 & ->).
    intros Hrest Hnone. rewrite (IH _ Hrest) by eauto.
    apply getitem_setitem_ne. intros ->. by eapply Hnone; eauto.
Qed.

Lemma for_each_parse_Returns (lines : list string) (d0 : dict) :
  (exists d, for_each lines parse_line d0 = Returns d)
  <-> Forall (fun line => exists k v, assigns line k v) lines.
Proof.
  revert d0. induction lines as [|line lines IH]; intros d0; simpl.
  - split; [constructor | eauto].
  - rewrite Forall_cons.
    destruct (parse_line d0 line) as [d1|e] eqn:Hline.
    + rewrite IH. apply parse_line_Returns in Hline as (k & v & ? & _).
      split; [eauto | tauto].
    + apply parse_line_Raises in Hline. split; [by intros [? ?] | tauto].
Qed.

End ParseChrLengthsFacts.

Section ParseChrLengthsResults.
Variable strip : string -> string.
Variable split : string -> list string.
Variable int : string -> option Z.

Abbreviation parse_line' := (parse_line strip split int).
Abbreviation assigns' := (assigns strip split int).

Lemma for_each_parse_Raises (lines : list string) (d0 : dict) e :
  for_each lines parse_line' d0 = Raises e
  <-> Exists (fun line => ~ exists k v, assigns' line k v) lines.
Proof.
  revert d0. induction lines as [|line lines IH]; intros d0; simpl.
  - split; [done | by intros ?%Exists_nil].
  - rewrite Exists_cons.
    destruct (parse_line' d0 line) as [d1|e'] eqn:Hline.
    + rewrite IH. apply parse_line_Returns in Hline as (k & v & Hk & _).
      split; [tauto|]. intros [Hnone|?]; [|done]. destruct Hnone. eauto.
    + destruct e, e'. apply parse_line_Raises in Hline. tauto.
Qed.

Lemma parse_last_assignment (lines1 lines2 : list string) line d k v :
  parse_chr_lengths strip split int (lines1 ++ line :: lines2) = Returns d ->
  assigns' line k v ->
  (forall line' v', In line' lines2 -> ~ assigns' line' k v') ->
  getitem d k = Ok v.
Proof.
  unfold parse_chr_lengths. rewrite for_each_app. simpl.
  destruct (for_each lines1 parse_line' []) as [d1|]; [|done].
  destruct (parse_line' d1 line) as [d2|] eqn:Hline; [|done].
  apply parse_line_Returns in Hline as (k1 & v1 & Hk1 & ->).
  intros Hrest Hk Hlater.
  destruct (assigns_functional _ _ _ _ _ _ _ _ Hk Hk1) as [<- <-].
  rewrite (for_each_parse_untouched _ _ _ _ _ _ _ Hrest Hlater).
  apply getitem_setitem_eq.
Qed.

End ParseChrLengthsResults.

(** X8. When [parse_chr_lengths] returns, the dictionary has pairwise
    distinct keys, and its keys are exactly the names given by the
    lines of the file. *)
Theorem parsed_lengths_keys strip split int lines d :
  parse_chr_lengths strip split int lines = Returns d ->
  dict_wf d
  /\ forall k, In k (keys d) <->
       exists line v, In line lines /\ assigns strip split int line k v.
Proof.
  intros Hparse. split.
  - apply (for_each_parse_wf _ _ _ _ _ _ Hparse). constructor.
  - intros k. rewrite (for_each_parse_keys _ _ _ _ _ _ k Hparse). simpl.
    tauto.
Qed.

Lemma parsed_lengths_keys_witness :
  dict_wf [("Chr7", 16000); ("Chr6", 20000)]
  /\ forall k, In k (keys [("Chr7", 16000); ("Chr6", 20000)]) <->
       exists line v,
         In line ["Chr7 15000"; "Chr6 20000"; "Chr7 16000"]
         /\ assigns id blank_split decimal_int line k v.
Proof.
  apply (parsed_lengths_keys id blank_split decimal_int
           ["Chr7 15000"; "Chr6 20000"; "Chr7 16000"]).
  vm_compute. reflexivity.
Defined.

(** X9. When a name occurs on several lines the last one wins: if
    [parse_chr_lengths] returns, a name maps to the length given on the
    last line that carries it. *)
Theorem last_line_wins strip split int lines1 line lines2 d k v :
  parse_chr_lengths strip split int (lines1 ++ line :: lines2) = Returns d ->
  assigns strip split int line k v ->
  (forall line' v', In line' lines2 -> ~ assigns strip split int line' k v') ->
  getitem d k = Ok v.
Proof. apply parse_last_assignment. Qed.

Lemma last_line_wins_witness :
  getitem [("Chr7", 16000); ("Chr6", 20000)] "Chr7" = Ok 16000.
Proof.
  apply (last_line_wins id blank_split decimal_int
           ["Chr7 15000"; "Chr6 20000"] "Chr7 16000" []
           [("Chr7", 16000); ("Chr6", 20000)] "Chr7" 16000).
  - vm_compute. reflexivity.
  - exists "16000". split; vm_compute; reflexivity.
  - intros line' v' [].
Defined.

(** X10. [parse_chr_lengths] returns exactly when every line yields
    two fields of which the second is an integer, and raises
    [ValueError] exactly when some line does not, wherever in the file
    that line stands. *)
Theorem parse_returns_iff_all_lines_assign strip split int lines :
  ((exists d, parse_chr_lengths strip split int lines = Returns d)
   <-> Forall (fun line => exists k v, assigns strip split int line k v)
              lines)
  /\ (parse_chr_lengths strip split int lines = Raises ValueError
      <-> Exists (fun line => ~ exists k v, assigns strip split int line k v)
                 lines).
Proof.
  split; [apply for_each_parse_Returns | apply for_each_parse_Raises].
Qed.

(** With the sample built-ins a blank line has no field. *)
Example parse_chr_lengths_blank_line :
  parse_chr_lengths id blank_split decimal_int ["Chr6 20000"; ""]
  = Raises ValueError.
Proof. vm_compute. reflexivity. Qed.

(** ** From the length file to the window table *)

Lemma output_sorted_pos_size df d W :
  dict_wf d -> 0 < W ->
  StronglySorted record_lt
    (flat_map (fun k => chromosome_windows df k (length_of d k) W)
              (sorted (keys d))).
Proof.
  intros Hwf HW. apply flat_map_sorted.
  - intros k w. apply chromosome_windows_chrom.
  - apply StronglySorted_sorted.
  - by apply NoDup_sorted_keys.
  - intros k _. by apply chromosome_windows_sorted.
Qed.

(** X11. [parse_chr_lengths] followed by [count_features_in_windows]:
    whatever the file says, once it is parsed and the window size is
    positive the counter returns a table sorted by chromosome and
    window start; a name given on several lines gets the windows of the
    length on its last line, [ceil (v / W)] of them, ending at [v],
    when that length [v] is positive. *)
Theorem parsed_lengths_feed_counter strip split int lines df W d :
  parse_chr_lengths strip split int lines = Returns d -> 0 < W ->
  exists out,
    count_features_in_windows df d W = Ok out
    /\ StronglySorted record_lt out
    /\ forall lines1 line lines2 k v,
         lines = lines1 ++ line :: lines2 ->
         assigns strip split int line k v ->
         (forall line' v', In line' lines2 ->
                           ~ assigns strip split int line' k v') ->
         0 < v ->
         length (windows_of k out) = Z.to_nat (ceil_div v W)
         /\ exists w, last (windows_of k out) = Some w /\ window_end w = v.
Proof.
  intros Hparse HW.
  assert (dict_wf d) as Hwf.
  { apply (for_each_parse_wf _ _ _ _ _ _ Hparse). constructor. }
  pose proof (count_features_in_windows_Ok df d W ltac:(lia)) as Hout.
  eexists. split; [exact Hout|]. split; [by apply output_sorted_pos_size|].
  intros lines1 line lines2 k v -> Hk Hlater Hv.
  pose proof (parse_last_assignment _ _ _ _ _ _ _ _ _ Hparse Hk Hlater)
    as Hget.
  rewrite (windows_of_output df d W k v _ Hwf ltac:(lia) Hget Hout).
  split; [apply length_chromosome_windows; lia|].
  destruct (last_chromosome_windows df k v W HW Hv) as (w & Hw & _ & He).
  eauto.
Qed.

Lemma parsed_lengths_feed_counter_witness :
  exists out,
    count_features_in_windows test_coords
      [("Chr7", 16000); ("Chr6", 20000)] 10000 = Ok out
    /\ StronglySorted record_lt out
    /\ forall lines1 line lines2 k v,
         ["Chr7 15000"; "Chr6 20000"; "Chr7 16000"]
         = lines1 ++ line :: lines2 ->
         assigns id blank_split decimal_int line k v ->
         (forall line' v', In line' lines2 ->
                           ~ assigns id blank_split decimal_int line' k v') ->
         0 < v ->
         length (windows_of k out) = Z.to_nat (ceil_div v 10000)
         /\ exists w, last (windows_of k out) = Some w /\ window_end w = v.
Proof.
  apply (parsed_lengths_feed_counter id blank_split decimal_int
           ["Chr7 15000"; "Chr6 20000"; "Chr7 16000"] test_coords 10000).
  - vm_compute. reflexivity.
  - lia.
Defined.

(** * The checks of [test_window_counting] *)

Lemma for_each_unit_Returns {E A : Type} (xs : list A)
    (body : unit -> A -> outcome E unit) :
  for_each xs body tt = Returns tt
  <-> forall x, In x xs -> body tt x = Returns tt.
Proof.
  induction xs as [|x xs IH]; simpl; [by split|].
  destruct (body tt x) as [[]|e] eqn:Hx.
  - rewrite IH. split; [by intros ? ? [<-|?]; auto | auto].
  - split; [done|]. intros Hall. rewrite <- Hx. auto.
Qed.

Lemma for_each_unit_Raises {E A : Type} (xs : list A)
    (body : unit -> A -> outcome E unit) (e : E) :
  for_each xs body tt = Raises e ->
  exists x, In x xs /\ body tt x = Raises e.
Proof.
  induction xs as [|x xs IH]; simpl; [done|].
  destruct (body tt x) as [[]|e'] eqn:Hx.
  - intros (y & ? & ?)%IH. eauto.
  - intros [= ->]. eauto.
Qed.

Section Verification.
Variables (df : DataFrame) (d : dict) (W : Z).
Hypothesis d_wf : dict_wf d.
Hypothesis W_pos : 0 < W.
Hypothesis d_pos : Forall (fun kv => 0 < snd kv) d.

Let out := flat_map (fun k => chromosome_windows df k (length_of d k) W)
                    (sorted (keys d)).

Lemma out_is_output : count_features_in_windows df d W = Ok out.
Proof. apply count_features_in_windows_Ok. lia. Qed.

(** The records of a chromosome of the map end with a window that stops
    at its length. *)
Lemma verify_last_window (k : string) (L : Z) :
  In (k, L) d ->
  exists w, last (windows_of k out) = Some w /\ window_end w = L
            /\ In w out.
Proof.
  intros Hin. pose proof (getitem_In_item d k L d_wf Hin) as Hget.
  rewrite Forall_forall in d_pos.
  pose proof (d_pos (k, L) ltac:(by apply list_elem_of_In)) as HL.
  simpl in HL.
  pose proof (windows_of_output df d W k L _ d_wf ltac:(lia) Hget
                out_is_output) as Hws.
  destruct (last_chromosome_windows df k L W W_pos HL) as (w & Hw & _ & He).
  exists w. rewrite Hws. split; [done|]. split; [done|].
  apply last_Some in Hw as [front Hfront].
  assert (In w (windows_of k out)) as Hwin.
  { rewrite Hws, Hfront. apply in_or_app. right. by left. }
  unfold windows_of in Hwin. by apply filter_In in Hwin as [? _].
Qed.

(** Every record stops at or before the length of some chromosome of
    the map, its own. *)
Lemma verify_window_end (w : WindowCount) :
  In w out -> exists k L, In (k, L) d /\ window_end w <= L.
Proof.
  intros Hw.
  destruct (In_output df d W _ w ltac:(lia) out_is_output Hw) as [Hk Hcw].
  destruct (getitem_In d _ Hk) as (L & HL & Hin).
  exists (w_chromosome w), L. split; [done|].
  destruct (getitem_In_wf d _ L HL) as [_ HLof]. rewrite HLof in Hcw.
  by eapply chromosome_windows_end_le.
Qed.

Lemma verify_step_output (k : string) (L : Z) :
  In (k, L) d ->
  verify_step out tt (k, L)
  = if forallb (fun w => window_end w <=? L) out then Returns tt
    else Raises (BeyondLengthAssertion k).
Proof.
  intros Hin. destruct (verify_last_window k L Hin) as (w & Hlast & He & Hw).
  unfold verify_step. destruct out as [|w0 out'] eqn:Hout; [done|].
  rewrite Hlast, He, Z.eqb_refl. simpl negb at 1. cbv iota.
  by destruct (forallb _ _).
Qed.

Lemma verify_all_within (L : Z) :
  forallb (fun w => window_end w <=? L) out = true
  <-> forall k' L', In (k', L') d -> L' <= L.
Proof.
  rewrite forallb_forall. split.
  - intros Hall k' L' Hin.
    destruct (verify_last_window k' L' Hin) as (w & _ & <- & Hw).
    by apply Z.leb_le, Hall.
  - intros Hall w Hw. destruct (verify_window_end w Hw) as (k' & L' & ? & ?).
    apply Z.leb_le. pose proof (Hall k' L' ltac:(done)). lia.
Qed.

Lemma verify_windows_Returns :
  verify_windows out d = Returns tt
  <-> forall k1 L1 k2 L2, In (k1, L1) d -> In (k2, L2) d -> L1 = L2.
Proof.
  unfold verify_windows. rewrite for_each_unit_Returns. split.
  - intros Hall k1 L1 k2 L2 H1 H2.
    pose proof (Hall _ H1) as Hs1. pose proof (Hall _ H2) as Hs2.
    rewrite verify_step_output in Hs1, Hs2 by done.
    destruct (forallb _ out) eqn:Hf1 in Hs1; [|done].
    destruct (forallb _ out) eqn:Hf2 in Hs2; [|done].
    pose proof (proj1 (verify_all_within L1) Hf1 _ _ H2).
    pose proof (proj1 (verify_all_within L2) Hf2 _ _ H1). lia.
  - intros Heq [k L] Hin. rewrite verify_step_output by done.
    rewrite (proj2 (verify_all_within L)); [done|].
    intros k' L' Hin'. by rewrite (Heq k' L' k L).
Qed.

Lemma verify_windows_Raises (e : test_exn) :
  verify_windows out d = Raises e ->
  exists k L k' L',
    e = BeyondLengthAssertion k /\ In (k, L) d /\ In (k', L') d /\ L < L'.
Proof.
  intros ([k L] & Hin & Hstep)%for_each_unit_Raises.
  rewrite verify_step_output in Hstep by done.
  destruct (forallb _ out) eqn:Hf; [done|]. injection Hstep as <-.
  assert (~ forall k' L', In (k', L') d -> L' <= L) as Hnot.
  { intros Hall. apply verify_all_within in Hall. congruence. }
  assert (exists kv, In kv d /\ L < snd kv) as ([k' L'] & Hin' & Hlt).
  { clear -Hnot. induction d as [|[k0 L0] d' IH].
    - destruct Hnot. by intros ? ? [].
    - destruct (Z.lt_ge_cases L L0) as [Hlt|Hge].
      + exists (k0, L0). split; [by left | done].
      + destruct IH as (kv & ? & ?).
        * intros Hall. apply Hnot.
          intros k' L' [[= <- <-]|?]; [lia | eauto].
        * exists kv. split; [by right | done]. }
  exists k, L, k', L'. auto.
Qed.

End Verification.

(** X12. The verification loop of [test_window_counting], run on the
    table the counter returns for a map of positive lengths and a
    positive window size. Its first assertion (the last window of each
    chromosome ends at the chromosome's length) never fails, and neither
    lookup raises. Its second assertion compares the ends of all windows
    of the table, those of the other chromosomes too, with the length
    of the chromosome at hand: the loop passes exactly when all
    chromosomes of the map have the same length, and otherwise raises
    the assertion "windows extending beyond chromosome length" for a
    chromosome shorter than another one. *)
Theorem verification_passes_iff_equal_lengths df d W :
  dict_wf d -> 0 < W -> Forall (fun kv => 0 < snd kv) d ->
  exists out,
    count_features_in_windows df d W = Ok out
    /\ (verify_windows out d = Returns tt
        <-> forall k1 L1 k2 L2, In (k1, L1) d -> In (k2, L2) d -> L1 = L2)
    /\ forall e, verify_windows out d = Raises e ->
         exists k L k' L',
           e = BeyondLengthAssertion k
           /\ In (k, L) d /\ In (k', L') d /\ L < L'.
Proof.
  intros Hwf HW Hpos. eexists. split; [by apply out_is_output|].
  split; [by apply verify_windows_Returns|].
  intros e. by apply verify_windows_Raises.
Qed.

Lemma verification_passes_iff_equal_lengths_witness :
  exists out,
    count_features_in_windows test_coords test_chr_lengths 10000 = Ok out
    /\ (verify_windows out test_chr_lengths = Returns tt
        <-> forall k1 L1 k2 L2,
              In (k1, L1) test_chr_lengths -> In (k2, L2) test_chr_lengths ->
              L1 = L2)
    /\ forall e, verify_windows out test_chr_lengths = Raises e ->
         exists k L k' L',
           e = BeyondLengthAssertion k
           /\ In (k, L) test_chr_lengths /\ In (k', L') test_chr_lengths
           /\ L < L'.
Proof.
  apply (verification_passes_iff_equal_lengths test_coords test_chr_lengths
           10000).
  - unfold dict_wf. compute_done.
  - lia.
  - repeat constructor; simpl; lia.
Defined.

(** On the data embedded in [test_window_counting] the loop raises at
    [Chr7]: the window [[10000, 20000)] of [Chr6] ends beyond 15000. *)
Example test_window_counting_verification :
  exists results,
    count_features_in_windows test_coords test_chr_lengths 10000 = Ok results
    /\ verify_windows results test_chr_lengths
       = Raises (BeyondLengthAssertion "Chr7").
Proof. eexists. split; vm_compute; reflexivity. Qed.
